(** * Seller onboarding: verification endpoint and client API wrapper

    A shallow embedding of
    - [server/src/routes/verify.js]: the schema [bankVerificationSchema] and
      the handler of [POST /api/verify/bank-account];
    - [src/services/api.ts]: [handleResponse], [uploadFile] and the three
      calls of [sellerApi];
    followed by the properties of the onboarding pipeline proved on it.

    JavaScript objects are finite maps from property names to values,
    JSON numbers are the rationals they denote. A string is held as the
    bytes of its UTF-8 encoding, which is how its literals are written
    here; its [length] is counted in UTF-16 code units, as JavaScript
    counts it. *)

From Stdlib Require Import QArith Ascii.
From stdpp Require Import gmap strings list fin_maps pretty.

Set Warnings "-register-all".
Set Default Proof Using "Type".

(* ===================================================================== *)
(** ** JavaScript values *)
(* ===================================================================== *)

Module Js.

Inductive jsval :=
| VUndef                               (* undefined *)
| VNull                                (* null *)
| VBool (b : bool)
| VNum (q : Q)
| VStr (s : string)
| VArr (l : list jsval)
| VObj (o : gmap string jsval)         (* plain object: own properties *)
| VFile (f : string)                   (* a browser File, by name *)
| VDate (t : N)                        (* a Date, by its epoch time *)
| VId (i : N).                         (* a database ObjectId *)

(** What a rejected promise or a throw carries. [Error m] is
    [new Error(m)]; the other errors are raised by the runtime and their
    message text is engine-specific. *)
Inductive js_error :=
| Error (message : string)
| TypeError
| SyntaxError
| NetworkFailure.

(** A computation that may throw: [inl e] is a throw (or a rejection). *)
Definition result (A : Type) : Type := js_error + A.

(** The UTF-16 code units that a character starting with the UTF-8
    byte [c] takes: one for a character of one, two or three bytes, two
    (a surrogate pair) for a character of four bytes, none for a
    continuation byte. *)
Definition utf16_units (c : ascii) : nat :=
  let n := nat_of_ascii c in
  if Nat.ltb n 128 then 1
  else if Nat.ltb n 192 then 0
  else if Nat.ltb n 240 then 1
  else 2.

(** [s.length]. *)
Fixpoint js_length (s : string) : nat :=
  match s with
  | EmptyString => 0
  | String c s' => utf16_units c + js_length s'
  end.

Definition is_undefined (v : jsval) : bool :=
  match v with VUndef => true | _ => false end.

(** ToBoolean. *)
Definition truthy (v : jsval) : bool :=
  match v with
  | VUndef | VNull => false
  | VBool b => b
  | VNum q => negb (Qeq_bool q 0)
  | VStr s => negb (String.eqb s "")
  | VArr _ | VObj _ | VFile _ | VDate _ | VId _ => true
  end.

(** [a || b]. *)
Definition js_or (a b : jsval) : jsval := if truthy a then a else b.

(** [o[k]] on an object: a missing property reads as [undefined]. *)
Definition get (o : gmap string jsval) (k : string) : jsval :=
  default VUndef (o !! k).

(** [v.k] for a property name [k] that no prototype defines: a
    [TypeError] on [null] and [undefined], the own property on an object,
    [undefined] on every other value. *)
Definition get_prop (v : jsval) (k : string) : result jsval :=
  match v with
  | VUndef | VNull => inl TypeError
  | VObj o => inr (get o k)
  | _ => inr VUndef
  end.

(** An optional value as a JavaScript value: absent is [undefined]. *)
Definition opt {A} (f : A → jsval) (x : option A) : jsval :=
  match x with Some a => f a | None => VUndef end.

(** [JSON.stringify] followed by [JSON.parse]: a property whose value is
    [undefined] is dropped, an [undefined] array element becomes [null], a
    File has no own enumerable property. An ObjectId and a Date travel as
    strings that determine them, and are kept as they are. *)
Fixpoint to_wire (v : jsval) : jsval :=
  match v with
  | VArr l => VArr (map (λ x, if is_undefined x then VNull else to_wire x) l)
  | VObj o =>
      VObj (omap (λ x, if is_undefined x then None else Some (to_wire x)) o)
  | VFile _ => VObj ∅
  | _ => v
  end.

(** [JSON.stringify] of an object literal, as the property map the
    receiver parses. *)
Definition JSON_stringify (o : gmap string jsval) : gmap string jsval :=
  omap (λ x, if is_undefined x then None else Some (to_wire x)) o.

End Js.
Import Js.

(* ===================================================================== *)
(** ** Regular expressions *)
(* ===================================================================== *)

(** The fragment of the JavaScript pattern language that the schema uses,
    run by a backtracking matcher in continuation-passing style. *)
Module Regex.

Inductive re :=
| Bol                                   (* ^ *)
| Eol                                   (* $ (no m flag) *)
| Chr (c : ascii)                       (* a literal character *)
| Digit                                 (* \d *)
| Cls (ranges : list (ascii * ascii))   (* [a-bc-d] *)
| Seq (r1 r2 : re)
| Rep (r : re) (lo hi : nat).        (* r{lo,hi}, greedy *)

Definition in_range (c : ascii) (r : ascii * ascii) : bool :=
  Nat.leb (nat_of_ascii r.1) (nat_of_ascii c)
  && Nat.leb (nat_of_ascii c) (nat_of_ascii r.2).

Definition is_digit (c : ascii) : bool := in_range c ("0", "9")%char.

Definition in_class (ranges : list (ascii * ascii)) (c : ascii) : bool :=
  existsb (in_range c) ranges.

Definition cont : Type := nat → list ascii → bool.

(** [n] iterations are still allowed, [lo] of them are still due; the
    longer match is tried first. *)
Fixpoint rep_loop (step : nat → list ascii → cont → bool) (k : cont)
    (n lo pos : nat) (s : list ascii) : bool :=
  match n with
  | O => Nat.eqb lo 0 && k pos s
  | S n' =>
      step pos s (λ p t, rep_loop step k n' (Nat.pred lo) p t)
      || (Nat.eqb lo 0 && k pos s)
  end.

(** [run r pos s k]: match [r] at index [pos], where [s] is the input
    from [pos] on, then continue with [k]. *)
Fixpoint run (r : re) (pos : nat) (s : list ascii) (k : cont) : bool :=
  match r with
  | Bol => Nat.eqb pos 0 && k pos s
  | Eol => match s with [] => k pos s | _ :: _ => false end
  | Chr c =>
      match s with c' :: t => Ascii.eqb c c' && k (S pos) t | [] => false end
  | Digit =>
      match s with c' :: t => is_digit c' && k (S pos) t | [] => false end
  | Cls rs =>
      match s with c' :: t => in_class rs c' && k (S pos) t | [] => false end
  | Seq r1 r2 => run r1 pos s (λ p t, run r2 p t k)
  | Rep r' lo hi => rep_loop (run r') k hi lo pos s
  end.

(** [r.test(s)] for a pattern without the g and y flags: a match is
    looked for at every start index. *)
Definition test (r : re) (s : string) : bool :=
  let cs := String.list_ascii_of_string s in
  existsb (λ i, run r i (drop i cs) (λ _ _, true)) (seq 0 (S (length cs))).

End Regex.

(* ===================================================================== *)
(** ** The schema validator (zod 3) *)
(* ===================================================================== *)

(** The part of the validation library that [bankVerificationSchema] is
    built from. A schema is a function of the path it sits at and of the
    input value; it yields the parsed value, or the issues it raised. An
    object schema parses every key of its shape, in order, and gathers the
    issues of all of them; keys outside the shape are dropped. *)
Module Zod.

Inductive path_elem :=
| Key (k : string)
| Idx (i : nat).

Inductive issue_code :=
| invalid_type
| invalid_string
| too_small
| too_big
| invalid_enum_value.

(** [message] is [Some m] where the schema supplies the text, [None]
    where the library's default error map words it. *)
Record issue := Issue {
  code : issue_code;
  path : list path_elem;
  message : option string
}.

Definition parsed (A : Type) : Type := list issue + A.

Definition issues_of {A} (r : parsed A) : list issue :=
  match r with inl e => e | inr _ => [] end.

Definition pure {A} (a : A) : parsed A := inr a.

(** Both sides are parsed; the issues of both are kept. *)
Definition ap {A B} (f : parsed (A → B)) (x : parsed A) : parsed B :=
  match f, x with
  | inr g, inr a => inr (g a)
  | inl e, inr _ => inl e
  | inr _, inl e => inl e
  | inl e1, inl e2 => inl (e1 ++ e2)
  end.

Definition schema (A : Type) : Type := list path_elem → jsval → parsed A.

Inductive string_check :=
| regex (r : Regex.re) (msg : string)
| min (n : nat)
| max (n : nat)
| url.

Section Strings.
(** [new URL(s)] does not throw. *)
Variable is_url : string → bool.

Definition check_string (p : list path_elem) (s : string)
    (c : string_check) : list issue :=
  match c with
  | regex r msg =>
      if Regex.test r s then [] else [Issue invalid_string p (Some msg)]
  | min n =>
      if Nat.ltb (js_length s) n then [Issue too_small p None] else []
  | max n =>
      if Nat.ltb n (js_length s) then [Issue too_big p None] else []
  | url =>
      if is_url s then [] else [Issue invalid_string p None]
  end.

(** [z.string()] with its checks: every check runs. *)
Definition z_string (checks : list string_check) : schema string :=
  λ p v,
    match v with
    | VStr s =>
        match flat_map (check_string p s) checks with
        | [] => inr s
        | e => inl e
        end
    | _ => inl [Issue invalid_type p None]
    end.
End Strings.

(** [z.number().min(lo)]. *)
Definition z_number_min (lo : Q) : schema Q :=
  λ p v,
    match v with
    | VNum q => if Qle_bool lo q then inr q else inl [Issue too_small p None]
    | _ => inl [Issue invalid_type p None]
    end.

(** [z.enum(values)]. *)
Definition z_enum (values : list string) : schema string :=
  λ p v,
    match v with
    | VStr s =>
        if existsb (String.eqb s) values then inr s
        else inl [Issue invalid_enum_value p None]
    | _ => inl [Issue invalid_type p None]
    end.

(** [inner.optional()]. *)
Definition z_optional {A} (inner : schema A) : schema (option A) :=
  λ p v,
    if is_undefined v then inr None
    else match inner p v with inr a => inr (Some a) | inl e => inl e end.

(** [inner.default(d)]. *)
Definition z_default {A} (inner : schema A) (d : jsval) : schema A :=
  λ p v, inner p (if is_undefined v then d else v).

Fixpoint array_items {A} (inner : schema A) (p : list path_elem)
    (i : nat) (l : list jsval) : parsed (list A) :=
  match l with
  | [] => inr []
  | v :: l' =>
      ap (ap (pure cons) (inner (p ++ [Idx i]) v))
         (array_items inner p (S i) l')
  end.

(** [z.array(inner)]. *)
Definition z_array {A} (inner : schema A) : schema (list A) :=
  λ p v,
    match v with
    | VArr l => array_items inner p 0 l
    | _ => inl [Issue invalid_type p None]
    end.

(** [z.object(shape)]: [fields] parses the keys of the shape out of the
    property map. *)
Definition z_object {A}
    (fields : list path_elem → gmap string jsval → parsed A) : schema A :=
  λ p v,
    match v with
    | VObj o => fields p o
    | _ => inl [Issue invalid_type p None]
    end.

(** The key [k] of a shape, parsed with [s]. *)
Definition field {A} (k : string) (s : schema A)
    (p : list path_elem) (o : gmap string jsval) : parsed A :=
  s (p ++ [Key k]) (get o k).

(** [schema.safeParse(v)]. *)
Definition safeParse {A} (s : schema A) (v : jsval) : parsed A := s [] v.

End Zod.

(* ===================================================================== *)
(** ** server/src/routes/verify.js *)
(* ===================================================================== *)

Module Verify.
Import Regex Zod.

#[local] Infix "<*>" := ap (at level 61, left associativity).

(** *** The schema *)

Record Location := {
  city : string;
  state : string;
  country : string
}.

Record Socials := {
  instagram : option string;
  facebook : option string;
  website : option string
}.

(** [validationResult.data]. *)
Record VerificationData := {
  accountNumber : string;
  ifscCode : string;
  bankName : string;
  name : string;
  bio : option string;
  location : Location;
  specialties : option (list string);
  experience : option Q;
  socials : option Socials;
  documentType : string;
  documentNumber : string
}.

(** [/^\d{9,18}$/] *)
Definition accountNumber_re : re :=
  Seq Bol (Seq (Rep Digit 9 18) Eol).

(** [/^[A-Z]{4}0[A-Z0-9]{6}$/] *)
Definition ifscCode_re : re :=
  Seq Bol
    (Seq (Rep (Cls [("A", "Z")%char]) 4 4)
       (Seq (Chr "0")
          (Seq (Rep (Cls [("A", "Z")%char; ("0", "9")%char]) 6 6) Eol))).

Section Schema.
Variable is_url : string → bool.

Definition location_schema : schema Location :=
  z_object (λ p o,
    pure Build_Location
    <*> field "city" (z_string is_url [min 1; max 100]) p o
    <*> field "state" (z_string is_url [min 1; max 100]) p o
    <*> field "country" (z_default (z_string is_url []) (VStr "India")) p o).

Definition socials_schema : schema Socials :=
  z_object (λ p o,
    pure Build_Socials
    <*> field "instagram" (z_optional (z_string is_url [])) p o
    <*> field "facebook" (z_optional (z_string is_url [])) p o
    <*> field "website" (z_optional (z_string is_url [url])) p o).

Definition bankVerificationSchema : schema VerificationData :=
  z_object (λ p o,
    pure Build_VerificationData
    <*> field "accountNumber"
          (z_string is_url
             [regex accountNumber_re "Account number must be 9-18 digits"])
          p o
    <*> field "ifscCode"
          (z_string is_url [regex ifscCode_re "Invalid IFSC code format"])
          p o
    <*> field "bankName" (z_string is_url [min 1; max 100]) p o
    <*> field "name" (z_string is_url [min 1; max 200]) p o
    <*> field "bio" (z_optional (z_string is_url [max 1000])) p o
    <*> field "location" location_schema p o
    <*> field "specialties" (z_optional (z_array (z_string is_url []))) p o
    <*> field "experience" (z_optional (z_number_min 0)) p o
    <*> field "socials" (z_optional socials_schema) p o
    <*> field "documentType" (z_enum ["aadhar"; "pan"; "license"]) p o
    <*> field "documentNumber" (z_string is_url [min 1]) p o).
End Schema.

(** *** Parsed data as JavaScript values *)

Definition location_val (l : Location) : jsval :=
  VObj (<["city" := VStr (city l)]>
       (<["state" := VStr (state l)]>
       (<["country" := VStr (country l)]> ∅))).

(** A key of the shape that the input lacks is absent from the output. *)
Definition set_opt (k : string) (x : option string)
    (o : gmap string jsval) : gmap string jsval :=
  match x with Some s => <[k := VStr s]> o | None => o end.

Definition socials_val (s : Socials) : jsval :=
  VObj (set_opt "instagram" (instagram s)
       (set_opt "facebook" (facebook s)
       (set_opt "website" (website s) ∅))).

Definition specialties_val (l : list string) : jsval := VArr (VStr <$> l).

Definition bankDetails_val (d : VerificationData) : jsval :=
  VObj (<["accountNumber" := VStr (accountNumber d)]>
       (<["ifscCode" := VStr (ifscCode d)]>
       (<["bankName" := VStr (bankName d)]> ∅))).

(** *** The record store *)

Inductive store_call :=
| FindOne (userId : N)
| Save (doc : gmap string jsval).

(** The collection of artisan documents, and the calls made on it. *)
Record store := Store {
  docs : list (gmap string jsval);
  calls : list store_call
}.

(** What the handler does not decide: whether the two store calls
    succeed, the clock, and the identifier given to a new document. *)
Record env := {
  find_ok : bool;
  save_ok : bool;
  now : N;
  fresh_id : N
}.

Definition owned_by (uid : N) (doc : gmap string jsval) : bool :=
  match doc !! "userId" with
  | Some (VId i) => N.eqb i uid
  | _ => false
  end.

(** Modelled from the spec: [Artisan.findOne({ userId })] of
    models/Artisan.js, the lookup by owner identity of a store that is
    keyed by owner: the first document of that owner with its place in
    the collection, if there is one. The call is recorded. *)
Definition findOne (e : env) (uid : N) (st : store)
    : result (option (nat * gmap string jsval)) * store :=
  let st' := Store (docs st) (calls st ++ [FindOne uid]) in
  if find_ok e
  then (inr (list_find (λ d, Is_true (owned_by uid d)) (docs st)), st')
  else (inl (Error "find failed"), st').

(** Modelled from the spec: [new Artisan(fields)] of models/Artisan.js,
    a record holding the supplied fields under a new identifier. *)
Definition Artisan (e : env) (fields : gmap string jsval)
    : gmap string jsval :=
  <["_id" := VId (fresh_id e)]> fields.

(** Modelled from the spec: [artisan.save()] of models/Artisan.js, the
    save operation of the store: a new record is added to the
    collection, a record that was looked up is written back in its
    place. The call is recorded. *)
Definition save (e : env) (place : option nat) (doc : gmap string jsval)
    (st : store) : result unit * store :=
  let log := calls st ++ [Save doc] in
  if save_ok e
  then (inr (),
        Store (match place with
               | None => docs st ++ [doc]
               | Some i => <[i := doc]> (docs st)
               end) log)
  else (inl (Error "save failed"), Store (docs st) log).

(** *** The handler *)

Record request := {
  body : jsval;        (* req.body *)
  user_id : N          (* req.user._id *)
}.

(** [res.status(status).json(json)]. *)
Record response := Response {
  status : nat;
  json : gmap string jsval
}.

(** [{ ...v }]: the own enumerable properties of [v]. *)
Definition spread (v : jsval) : gmap string jsval :=
  match v with
  | VObj o => o
  | VArr l => list_to_map (imap (λ i x, (pretty i, x)) l)
  | VStr s =>
      list_to_map
        (imap (λ i c, (pretty i, VStr (String c EmptyString)))
           (String.list_ascii_of_string s))
  | _ => ∅
  end.

Section Handler.
Variable is_url : string → bool.
Variable issue_json : issue → jsval.   (* an issue as it is serialised *)

(** Lines 68-87. *)
Definition create_artisan (e : env) (userId : N) (d : VerificationData)
    : gmap string jsval :=
  Artisan e
    (<["userId" := VId userId]>
    (<["name" := VStr (name d)]>
    (<["bio" := js_or (opt VStr (bio d)) (VStr "")]>
    (<["location" := location_val (location d)]>
    (<["specialties" := js_or (opt specialties_val (specialties d)) (VArr [])]>
    (<["experience" := js_or (opt VNum (experience d)) (VNum 0)]>
    (<["socials" := js_or (opt socials_val (socials d)) (VObj ∅)]>
    (<["verification" :=
         VObj (<["isVerified" := VBool true]>
              (<["documentType" := VStr (documentType d)]>
              (<["documentNumber" := VStr (documentNumber d)]>
              (<["bankDetails" := bankDetails_val d]>
              (<["verifiedAt" := VDate (now e)]> ∅)))))]>
     ∅)))))))).

(** [if (c) artisan.k = v;] *)
Definition assign_if (c : bool) (k : string) (v : jsval)
    (artisan : gmap string jsval) : gmap string jsval :=
  if c then <[k := v]> artisan else artisan.

(** Lines 97-108, the object literal. Later keys overwrite the keys
    spread from the old block. *)
Definition verification_update (e : env) (d : VerificationData)
    (old : jsval) : gmap string jsval :=
  <["verifiedAt" := VDate (now e)]>
  (<["bankDetails" := bankDetails_val d]>
  (<["documentNumber" := VStr (documentNumber d)]>
  (<["documentType" := VStr (documentType d)]>
  (<["isVerified" := VBool true]>
  (spread old))))).

(** Lines 90-108. *)
Definition update_artisan (e : env) (d : VerificationData)
    (artisan : gmap string jsval) : gmap string jsval :=
  let bio := opt VStr (bio d) in
  let location := location_val (location d) in
  let specialties := opt specialties_val (specialties d) in
  let experience := opt VNum (experience d) in
  let socials := opt socials_val (socials d) in
  let a1 := <["name" := VStr (name d)]> artisan in
  let a2 := assign_if (negb (is_undefined bio)) "bio" bio a1 in
  let a3 := assign_if (truthy location) "location" location a2 in
  let a4 := assign_if (truthy specialties) "specialties" specialties a3 in
  let a5 :=
    assign_if (negb (is_undefined experience)) "experience" experience a4 in
  let a6 := assign_if (truthy socials) "socials" socials a5 in
  <["verification" :=
      VObj (verification_update e d (get a6 "verification"))]> a6.

(** Lines 113-121. *)
Definition acknowledge (artisan : gmap string jsval) : result response :=
  match get_prop (get artisan "verification") "isVerified" with
  | inl err => inl err
  | inr isVerified =>
      inr (Response 200
             (<["success" := VBool true]>
             (<["message" := VStr "Form validated and stored successfully"]>
             (<["artisan" :=
                  VObj (<["id" := get artisan "_id"]>
                       (<["name" := get artisan "name"]>
                       (<["isVerified" := isVerified]> ∅)))]> ∅))))
  end.

(** Lines 47-121: what runs inside [try] once validation has passed. *)
Definition store_form (e : env) (userId : N) (d : VerificationData)
    (st : store) : result response * store :=
  match findOne e userId st with
  | (inl err, st1) => (inl err, st1)
  | (inr found, st1) =>
      let '(place, artisan) :=
        match found with
        | None => (None, create_artisan e userId d)
        | Some (i, artisan) => (Some i, update_artisan e d artisan)
        end in
      match save e place artisan st1 with
      | (inl err, st2) => (inl err, st2)
      | (inr _, st2) => (acknowledge artisan, st2)
      end
  end.

(** [router.post('/bank-account', authenticateToken, ...)], after the
    authentication step has set [req.user]. *)
Definition bank_account (e : env) (req : request) (st : store)
    : response * store :=
  match safeParse (bankVerificationSchema is_url) (body req) with
  | inl errors =>
      (Response 400
         (<["error" := VStr "Validation failed"]>
         (<["details" := VArr (issue_json <$> errors)]> ∅)),
       st)
  | inr data =>
      match store_form e (user_id req) data st with
      | (inr res, st') => (res, st')
      | (inl _, st') =>
          (Response 500
             (<["error" := VStr "Failed to validate and store form"]> ∅),
           st')
      end
  end.
End Handler.

End Verify.

(* ===================================================================== *)
(** ** src/services/api.ts *)
(* ===================================================================== *)

Module Api.

Inductive upload_type := document | image | video.

Inductive payload :=
| NoBody
| FormData (file : string) (type : upload_type)  (* fields file and type *)
| JsonBody (o : gmap string jsval).                 (* JSON.stringify(o) *)

(** The arguments of one [fetch] call. *)
Record http_request := Request {
  url : string;
  method : string;
  headers : list (string * string);
  content : payload
}.

(** A [Response]: [body_json] is what [response.json()] resolves to,
    [None] when it rejects (no body, or a body that is not JSON). *)
Record Response := {
  ok : bool;
  body_json : option jsval
}.

Record Address := {
  village : string;
  district : string;
  addr_state : string;       (* state *)
  pincode : string
}.

Record PriceRange := { price_min : string; price_max : string }.

Record PickupAddress := { sameAsMain : bool; pickup_address : string }.

Record SellerFormData := {
  businessName : string;
  ownerName : string;
  email : string;
  phone : string;
  address : Address;
  yearsOfExperience : string;
  profilePhoto : option string;      (* File | null *)
  sellerType : string;
  gstNumber : string;
  gstCertificate : option string;
  aadhaarNumber : string;
  aadhaarProof : option string;
  panNumber : string;
  categories : list string;
  productDescription : string;
  materials : string;
  priceRange : PriceRange;
  stockQuantity : string;
  productPhotos : list string;       (* File[] *)
  pickupAddress : PickupAddress;
  dispatchTime : string;
  packagingType : string;
  bankName : string;
  accountNumber : string;
  ifscCode : string;
  upiId : string;
  paymentFrequency : string;
  story : string;
  craftVideo : option string
}.

Definition file_val (f : option string) : jsval :=
  match f with Some n => VFile n | None => VNull end.

(** The own properties of a [SellerFormData], as [{ ...data }] copies
    them. *)
Definition data_props (data : SellerFormData) : gmap string jsval :=
  list_to_map [
    ("businessName", VStr (businessName data));
    ("ownerName", VStr (ownerName data));
    ("email", VStr (email data));
    ("phone", VStr (phone data));
    ("address",
      VObj (list_to_map [
        ("village", VStr (village (address data)));
        ("district", VStr (district (address data)));
        ("state", VStr (addr_state (address data)));
        ("pincode", VStr (pincode (address data)))]));
    ("yearsOfExperience", VStr (yearsOfExperience data));
    ("profilePhoto", file_val (profilePhoto data));
    ("sellerType", VStr (sellerType data));
    ("gstNumber", VStr (gstNumber data));
    ("gstCertificate", file_val (gstCertificate data));
    ("aadhaarNumber", VStr (aadhaarNumber data));
    ("aadhaarProof", file_val (aadhaarProof data));
    ("panNumber", VStr (panNumber data));
    ("categories", VArr (VStr <$> categories data));
    ("productDescription", VStr (productDescription data));
    ("materials", VStr (materials data));
    ("priceRange",
      VObj (list_to_map [
        ("min", VStr (price_min (priceRange data)));
        ("max", VStr (price_max (priceRange data)))]));
    ("stockQuantity", VStr (stockQuantity data));
    ("productPhotos", VArr (VFile <$> productPhotos data));
    ("pickupAddress",
      VObj (list_to_map [
        ("sameAsMain", VBool (sameAsMain (pickupAddress data)));
        ("address", VStr (pickup_address (pickupAddress data)))]));
    ("dispatchTime", VStr (dispatchTime data));
    ("packagingType", VStr (packagingType data));
    ("bankName", VStr (bankName data));
    ("accountNumber", VStr (accountNumber data));
    ("ifscCode", VStr (ifscCode data));
    ("upiId", VStr (upiId data));
    ("paymentFrequency", VStr (paymentFrequency data));
    ("story", VStr (story data));
    ("craftVideo", file_val (craftVideo data))].

(** A call that sends requests: it takes the requests sent so far and
    returns its outcome with the requests sent by then. *)
Definition task (A : Type) : Type :=
  list http_request → result A * list http_request.

(** [p.then(f)] on a settled promise. *)
Definition then_ {A B} (p : result A) (f : A → result B) : result B :=
  match p with inl e => inl e | inr a => f a end.

Fixpoint fulfilled {A} (ps : list (result A)) : option (list A) :=
  match ps with
  | [] => Some []
  | inr a :: ps' => cons a <$> fulfilled ps'
  | inl _ :: _ => None
  end.

Definition rejections {A} (ps : list (result A)) : list js_error :=
  omap (λ p, match p with inl e => Some e | inr _ => None end) ps.

(** [Object.assign({}, ...sources)]: a later source overwrites. *)
Definition Object_assign (sources : list (gmap string jsval))
    : gmap string jsval :=
  foldl (λ target src, src ∪ target) ∅ sources.

Section Client.
Variable API_BASE_URL : string.
(** The network: how each request is answered. [inl] is a [fetch] that
    rejects. *)
Variable net : http_request → result Response.
(** Among several rejections, the one that settled first. *)
Variable first_rejected : list js_error → js_error.
(** ToString of a value that is not a string. *)
Variable to_string : jsval → string.

Definition fetch (req : http_request) : task Response :=
  λ sent, (net req, sent ++ [req]).

(** [Promise.all(ps)]. *)
Definition Promise_all {A} (ps : list (result A)) : result (list A) :=
  match fulfilled ps with
  | Some values => inr values
  | None => inl (first_rejected (rejections ps))
  end.

(** [new Error(v)]. *)
Definition new_Error (v : jsval) : js_error :=
  Error (match v with VStr s => s | _ => to_string v end).

(** Lines 23-29. *)
Definition handleResponse (response : Response) : result jsval :=
  if negb (ok response) then
    let error := default (VObj ∅) (body_json response) in
    match get_prop error "message" with
    | inl e => inl e
    | inr message =>
        inl (new_Error (js_or message (VStr "Something went wrong")))
    end
  else
    match body_json response with
    | Some v => inr v
    | None => inl SyntaxError
    end.

(** Lines 32-43. *)
Definition uploadFile (file : string) (type : upload_type) : task jsval :=
  λ sent,
    let '(response, sent') :=
      fetch (Request (API_BASE_URL +:+ "/upload") "POST" []
               (FormData file type)) sent in
    (then_ response handleResponse, sent').

(** [res => ({ k: res.url })]. *)
Definition url_as (k : string) (res : jsval) : result (gmap string jsval) :=
  then_ (get_prop res "url") (λ u, inr {[ k := u ]}).

(** [if (file) uploadPromises.push(uploadFile(file, type).then(...))]:
    the request leaves when the call is made. *)
Definition push_upload (file : option string) (type : upload_type)
    (k : string) (uploadPromises : list (result (gmap string jsval)))
    : list http_request
      → list (result (gmap string jsval)) * list http_request :=
  λ sent,
    match file with
    | Some f =>
        let '(p, sent') := uploadFile f type sent in
        (uploadPromises ++ [then_ p (url_as k)], sent')
    | None => (uploadPromises, sent)
    end.

(** [photos.map(photo => uploadFile(photo, 'image'))]. *)
Fixpoint upload_each (photos : list string)
    : list http_request → list (result jsval) * list http_request :=
  λ sent,
    match photos with
    | [] => ([], sent)
    | photo :: rest =>
        let '(p, sent1) := uploadFile photo image sent in
        let '(ps, sent2) := upload_each rest sent1 in
        (p :: ps, sent2)
    end.

(** [results.map(r => r.url)]. *)
Fixpoint urls_of (results : list jsval) : result (list jsval) :=
  match results with
  | [] => inr []
  | r :: rest =>
      then_ (get_prop r "url") (λ u,
        then_ (urls_of rest) (λ us, inr (u :: us)))
  end.

(** Lines 115-123. *)
Definition push_photos (photos : list string)
    (uploadPromises : list (result (gmap string jsval)))
    : list http_request
      → list (result (gmap string jsval)) * list http_request :=
  λ sent,
    if Nat.ltb 0 (length photos) then
      let '(productPhotoPromises, sent') := upload_each photos sent in
      (uploadPromises
         ++ [then_ (Promise_all productPhotoPromises) (λ results,
               then_ (urls_of results) (λ us,
                 inr {[ "productPhotoUrls" := VArr us ]}))],
       sent')
    else (uploadPromises, sent).

(** Lines 92-130: the uploads that are started, in program order. *)
Definition start_uploads (data : SellerFormData)
    : list http_request
      → list (result (gmap string jsval)) * list http_request :=
  λ sent0,
    let '(ps1, sent1) :=
      push_upload (profilePhoto data) image "profilePhotoUrl" [] sent0 in
    let '(ps2, sent2) :=
      push_upload (gstCertificate data) document "gstCertificateUrl"
        ps1 sent1 in
    let '(ps3, sent3) :=
      push_upload (aadhaarProof data) document "aadhaarProofUrl"
        ps2 sent2 in
    let '(ps4, sent4) := push_photos (productPhotos data) ps3 sent3 in
    push_upload (craftVideo data) video "craftVideoUrl" ps4 sent4.

(** Lines 137-145. *)
Definition finalData (data : SellerFormData)
    (fileUrls : gmap string jsval) : gmap string jsval :=
  <["craftVideo" := VUndef]>
  (<["productPhotos" := VUndef]>
  (<["aadhaarProof" := VUndef]>
  (<["gstCertificate" := VUndef]>
  (<["profilePhoto" := VUndef]>
  (fileUrls ∪ data_props data))))).

Definition json_headers : list (string * string) :=
  [("Content-Type", "application/json")].

(** Lines 90-157. *)
Definition registerSeller (data : SellerFormData) : task jsval :=
  λ sent0,
    let '(uploadPromises, sent1) := start_uploads data sent0 in
    match Promise_all uploadPromises with
    | inl e => (inl e, sent1)
    | inr uploadResults =>
        let fileUrls := Object_assign uploadResults in
        let '(response, sent2) :=
          fetch (Request (API_BASE_URL +:+ "/sellers/register") "POST"
                   json_headers
                   (JsonBody (JSON_stringify (finalData data fileUrls))))
            sent1 in
        (then_ response handleResponse, sent2)
    end.

(** Lines 160-163. *)
Definition verifyGST (gstNumber : string) : task jsval :=
  λ sent,
    let '(response, sent') :=
      fetch (Request (API_BASE_URL +:+ "/verify/gst/" +:+ gstNumber)
               "GET" [] NoBody) sent in
    (then_ response handleResponse, sent').

(** Line 172: [{ ifsc, accountNumber }]. *)
Definition bank_account_body (ifsc accountNumber : string)
    : gmap string jsval :=
  <["ifsc" := VStr ifsc]> (<["accountNumber" := VStr accountNumber]> ∅).

(** Lines 166-175. *)
Definition verifyBankAccount (ifsc accountNumber : string) : task jsval :=
  λ sent,
    let '(response, sent') :=
      fetch (Request (API_BASE_URL +:+ "/verify/bank-account") "POST"
               json_headers
               (JsonBody
                  (JSON_stringify (bank_account_body ifsc accountNumber))))
        sent in
    (then_ response handleResponse, sent').
End Client.

End Api.

(* ===================================================================== *)
(** ** The vocabulary of the statements *)
(* ===================================================================== *)

Module Reading.
Import Regex Zod.

(** The reading of the patterns in words. *)
Definition chars (s : string) : list ascii := String.list_ascii_of_string s.

Definition is_upper (c : ascii) : bool := in_range c ("A", "Z")%char.
Definition is_lower (c : ascii) : bool := in_range c ("a", "z")%char.
Definition is_upper_or_digit (c : ascii) : bool := is_upper c || is_digit c.
Definition is_alphanumeric (c : ascii) : bool :=
  is_upper c || is_lower c || is_digit c.

(** 9 to 18 decimal digits. *)
Definition digits_9_to_18 (s : string) : bool :=
  Nat.leb 9 (length (chars s)) && Nat.leb (length (chars s)) 18
  && forallb is_digit (chars s).

(** 4 uppercase letters, then a zero, then 6 characters of class [tail]. *)
Definition ifsc_form (tail : ascii → bool) (s : string) : bool :=
  Nat.eqb (length (chars s)) 11
  && forallb is_upper (take 4 (chars s))
  && match chars s !! 4 with Some c => Ascii.eqb "0" c | None => false end
  && forallb tail (drop 5 (chars s)).

(** A pattern that consumes exactly one character of class [p]. *)
Definition single (r : re) (p : ascii → bool) : Prop :=
  ∀ pos s k,
    run r pos s k
    = match s with c :: t => p c && k (S pos) t | [] => false end.

(** An issue reported on the top-level key [k], or on something inside
    its value. *)
Definition on_field (k : string) (i : issue) : bool :=
  match path i with
  | Key k' :: _ => String.eqb k k'
  | _ => false
  end.

(** The field-level errors on [k] of a validation result. *)
Definition field_errors {A} (k : string) (r : parsed A) : list issue :=
  List.filter (on_field k) (issues_of r).

(** A schema reports its issues at or below the path it is given. *)
Definition rooted {A} (s : schema A) : Prop :=
  ∀ p v i, i ∈ issues_of (s p v) → p `prefix_of` path i.

(** A result that fails carries at least one issue. *)
Definition proper {A} (r : parsed A) : Prop := r ≠ inl [].

(** The request carries the field [k]. *)
Definition present (o : gmap string jsval) (k : string) : bool :=
  negb (is_undefined (get o k)).

(** The fields of the verification sub-object of an ArtisanRecord
    (data model): verified flag, document type and number, bank details,
    verification timestamp. *)
Definition verification_fields : gset string :=
  {[ "isVerified"; "documentType"; "documentNumber"; "bankDetails";
     "verifiedAt" ]}.

(** The verification block that a validated submission stands for:
    verified, the declared document, the three bank fields, the time of
    the request. *)
Definition verified_block (e : Verify.env) (d : Verify.VerificationData)
    : gmap string jsval :=
  {[ "isVerified" := VBool true;
     "documentType" := VStr (Verify.documentType d);
     "documentNumber" := VStr (Verify.documentNumber d);
     "bankDetails" :=
       VObj {[ "accountNumber" := VStr (Verify.accountNumber d);
               "ifscCode" := VStr (Verify.ifscCode d);
               "bankName" := VStr (Verify.bankName d) ]};
     "verifiedAt" := VDate (Verify.now e) ]}.

(** The profile fields and the verification block of a record. *)
Definition written_fields : list string :=
  ["name"; "bio"; "location"; "specialties"; "experience"; "socials";
   "verification"].

(** The reduced record view of the acknowledgement. *)
Definition ack_json (id name isVerified : jsval) : gmap string jsval :=
  {[ "success" := VBool true;
     "message" := VStr "Form validated and stored successfully";
     "artisan" :=
       VObj {[ "id" := id; "name" := name; "isVerified" := isVerified ]} ]}.

(** The response of the endpoint as the client receives it. *)
Definition delivered (r : Verify.response) : Api.Response :=
  {| Api.ok :=
       Nat.leb 200 (Verify.status r) && Nat.leb (Verify.status r) 299;
     Api.body_json := Some (VObj (JSON_stringify (Verify.json r))) |}.

Definition file_attachment (file : option string) (type : Api.upload_type)
    : list (string * Api.upload_type) :=
  match file with Some f => [(f, type)] | None => [] end.

Definition photo_attachments (photos : list string)
    : list (string * Api.upload_type) :=
  (λ f, (f, Api.image)) <$> photos.

(** The attachments of a submission with the kind each is uploaded as,
    in the order of the upload calls. *)
Definition attachments (data : Api.SellerFormData)
    : list (string * Api.upload_type) :=
  file_attachment (Api.profilePhoto data) Api.image
  ++ file_attachment (Api.gstCertificate data) Api.document
  ++ file_attachment (Api.aadhaarProof data) Api.document
  ++ photo_attachments (Api.productPhotos data)
  ++ file_attachment (Api.craftVideo data) Api.video.

(** The upload call of one attachment. *)
Definition upload_request (base : string)
    (a : string * Api.upload_type) : Api.http_request :=
  Api.Request (base +:+ "/upload") "POST" [] (Api.FormData a.1 a.2).

Definition is_upload (req : Api.http_request) : bool :=
  match Api.content req with Api.FormData _ _ => true | _ => false end.

(** How the upload call of one attachment ends. *)
Definition upload_outcome (base : string)
    (net : Api.http_request → result Api.Response)
    (to_string : jsval → string) (a : string * Api.upload_type)
    : result jsval :=
  Api.then_ (net (upload_request base a)) (Api.handleResponse to_string).

Definition rejected {A} (p : result A) : Prop := ∃ err, p = inl err.

(** A step of the upload schedule adds the requests of its attachments;
    it adds no promise when it has no attachment, and a promise that
    rejects when one of its uploads fails. *)
Definition upload_step (base : string)
    (net : Api.http_request → result Api.Response)
    (to_string : jsval → string)
    (step : list (result (gmap string jsval)) → list Api.http_request
            → list (result (gmap string jsval)) * list Api.http_request)
    (atts : list (string * Api.upload_type)) : Prop :=
  ∀ ps sent, ∃ new,
    step ps sent = (ps ++ new, sent ++ (upload_request base <$> atts))
    ∧ (atts = [] → new = [])
    ∧ (Exists (λ a, rejected (upload_outcome base net to_string a)) atts
       → Exists rejected new).

(** The registration call with the wire payload [o]. *)
Definition register_request (base : string) (o : gmap string jsval)
    : Api.http_request :=
  Api.Request (base +:+ "/sellers/register") "POST" Api.json_headers
    (Api.JsonBody o).

(** The call of [verifyBankAccount]. *)
Definition bank_account_request (base ifsc accountNumber : string)
    : Api.http_request :=
  Api.Request (base +:+ "/verify/bank-account") "POST" Api.json_headers
    (Api.JsonBody
       (JSON_stringify (Api.bank_account_body ifsc accountNumber))).

(** The fields of the wire payload that come from files: the raw file
    fields and the locations of the uploaded files. *)
Definition file_fields : list string :=
  ["profilePhoto"; "gstCertificate"; "aadhaarProof"; "productPhotos";
   "craftVideo"; "profilePhotoUrl"; "gstCertificateUrl";
   "aadhaarProofUrl"; "productPhotoUrls"; "craftVideoUrl"].

(** *** Sample data *)

Definition sample_env : Verify.env :=
  {| Verify.find_ok := true; Verify.save_ok := true;
     Verify.now := 1700000000000; Verify.fresh_id := 42 |}.

(** The example payload of the specification, with the account number
    left open. *)
Definition sample_payload (accountNumber : string) : gmap string jsval :=
  {[ "accountNumber" := VStr accountNumber;
     "ifscCode" := VStr "ABCD0123456";
     "bankName" := VStr "Test Bank";
     "name" := VStr "Jane";
     "location" := VObj {[ "city" := VStr "Pune"; "state" := VStr "MH" ]};
     "documentType" := VStr "aadhar";
     "documentNumber" := VStr "X1" ]}.

Definition sample_request (accountNumber : string) : Verify.request :=
  {| Verify.body := VObj (sample_payload accountNumber);
     Verify.user_id := 7 |}.

Definition sample_data : Verify.VerificationData :=
  {| Verify.accountNumber := "123456789";
     Verify.ifscCode := "ABCD0123456";
     Verify.bankName := "Test Bank";
     Verify.name := "Jane";
     Verify.bio := None;
     Verify.location :=
       {| Verify.city := "Pune"; Verify.state := "MH";
          Verify.country := "India" |};
     Verify.specialties := None;
     Verify.experience := None;
     Verify.socials := None;
     Verify.documentType := "aadhar";
     Verify.documentNumber := "X1" |}.

(** A record of owner 7 that is not verified yet. *)
Definition sample_record : gmap string jsval :=
  {[ "_id" := VId 9;
     "userId" := VId 7;
     "name" := VStr "J.";
     "bio" := VStr "Weaver";
     "verification" := VObj {[ "isVerified" := VBool false ]} ]}.

(** A submission with no attachment. *)
Definition sample_form : Api.SellerFormData :=
  {| Api.businessName := "Looms"; Api.ownerName := "Jane";
     Api.email := "jane@example.org"; Api.phone := "9000000000";
     Api.address :=
       {| Api.village := "Ward 4"; Api.district := "Pune";
          Api.addr_state := "MH"; Api.pincode := "411001" |};
     Api.yearsOfExperience := "12"; Api.profilePhoto := None;
     Api.sellerType := "artisan"; Api.gstNumber := "";
     Api.gstCertificate := None; Api.aadhaarNumber := "";
     Api.aadhaarProof := None; Api.panNumber := "";
     Api.categories := ["textiles"]; Api.productDescription := "Sarees";
     Api.materials := "cotton";
     Api.priceRange := {| Api.price_min := "500"; Api.price_max := "900" |};
     Api.stockQuantity := "20"; Api.productPhotos := [];
     Api.pickupAddress :=
       {| Api.sameAsMain := true; Api.pickup_address := "" |};
     Api.dispatchTime := "3"; Api.packagingType := "box";
     Api.bankName := "Test Bank"; Api.accountNumber := "123456789";
     Api.ifscCode := "ABCD0123456"; Api.upiId := "";
     Api.paymentFrequency := "weekly"; Api.story := "";
     Api.craftVideo := None |}.

(** The same submission with a profile photo and two product photos. *)
Definition sample_form_files : Api.SellerFormData :=
  {| Api.businessName := "Looms"; Api.ownerName := "Jane";
     Api.email := "jane@example.org"; Api.phone := "9000000000";
     Api.address :=
       {| Api.village := "Ward 4"; Api.district := "Pune";
          Api.addr_state := "MH"; Api.pincode := "411001" |};
     Api.yearsOfExperience := "12"; Api.profilePhoto := Some "me.png";
     Api.sellerType := "artisan"; Api.gstNumber := "";
     Api.gstCertificate := None; Api.aadhaarNumber := "";
     Api.aadhaarProof := None; Api.panNumber := "";
     Api.categories := ["textiles"]; Api.productDescription := "Sarees";
     Api.materials := "cotton";
     Api.priceRange := {| Api.price_min := "500"; Api.price_max := "900" |};
     Api.stockQuantity := "20"; Api.productPhotos := ["a.png"; "b.png"];
     Api.pickupAddress :=
       {| Api.sameAsMain := true; Api.pickup_address := "" |};
     Api.dispatchTime := "3"; Api.packagingType := "box";
     Api.bankName := "Test Bank"; Api.accountNumber := "123456789";
     Api.ifscCode := "ABCD0123456"; Api.upiId := "";
     Api.paymentFrequency := "weekly"; Api.story := "";
     Api.craftVideo := None |}.

(** A network on which the upload of [b.png] is refused and every other
    call is answered with a location. *)
Definition sample_net (req : Api.http_request) : result Api.Response :=
  match Api.content req with
  | Api.FormData "b.png" _ =>
      inr {| Api.ok := false;
             Api.body_json :=
               Some (VObj {[ "message" := VStr "File too large" ]}) |}
  | _ =>
      inr {| Api.ok := true;
             Api.body_json := Some (VObj {[ "url" := VStr "/files/1" ]}) |}
  end.

Definition first_of (errs : list js_error) : js_error :=
  match errs with err :: _ => err | [] => TypeError end.

Definition empty_store : Verify.store := Verify.Store [] [].

Definition sample_store : Verify.store := Verify.Store [sample_record] [].

End Reading.

(* ===================================================================== *)
(** ** Further vocabulary: validity, ownership, upload results *)
(* ===================================================================== *)

Module Vocabulary.
Import Regex Zod Reading.

(** *** Payloads *)

Definition is_ok {A} (r : parsed A) : bool :=
  match r with inr _ => true | inl _ => false end.

Definition is_string (v : jsval) : bool :=
  match v with VStr _ => true | _ => false end.

(** A string of [lo] to [hi] UTF-16 code units. *)
Definition string_between (lo hi : nat) (v : jsval) : bool :=
  match v with
  | VStr s => Nat.leb lo (js_length s) && Nat.leb (js_length s) hi
  | _ => false
  end.

(** Absent, or as [rule] wants it. *)
Definition absent_or (rule : jsval → bool) (v : jsval) : bool :=
  is_undefined v || rule v.

Definition location_ok (v : jsval) : bool :=
  match v with
  | VObj o =>
      string_between 1 100 (get o "city")
      && string_between 1 100 (get o "state")
      && absent_or is_string (get o "country")
  | _ => false
  end.

Definition socials_ok (is_url : string → bool) (v : jsval) : bool :=
  match v with
  | VObj o =>
      absent_or is_string (get o "instagram")
      && absent_or is_string (get o "facebook")
      && absent_or (λ w, match w with VStr s => is_url s | _ => false end)
           (get o "website")
  | _ => false
  end.

(** The payloads that meet every rule of the schema, rule by rule in the
    order of the shape. *)
Definition acceptable (is_url : string → bool) (v : jsval) : bool :=
  match v with
  | VObj o =>
      match get o "accountNumber" with
      | VStr s => digits_9_to_18 s
      | _ => false
      end
      && match get o "ifscCode" with
         | VStr s => ifsc_form is_upper_or_digit s
         | _ => false
         end
      && string_between 1 100 (get o "bankName")
      && string_between 1 200 (get o "name")
      && absent_or (string_between 0 1000) (get o "bio")
      && location_ok (get o "location")
      && absent_or (λ w, match w with
                         | VArr l => forallb is_string l
                         | _ => false
                         end) (get o "specialties")
      && absent_or (λ w, match w with
                         | VNum q => Qle_bool 0 q
                         | _ => false
                         end) (get o "experience")
      && absent_or (socials_ok is_url) (get o "socials")
      && match get o "documentType" with
         | VStr s => existsb (String.eqb s) ["aadhar"; "pan"; "license"]
         | _ => false
         end
      && match get o "documentNumber" with
         | VStr s => Nat.leb 1 (js_length s)
         | _ => false
         end
  | _ => false
  end.

(** A check of [z.string()] passes. *)
Definition check_passes (is_url : string → bool) (s : string)
    (c : string_check) : bool :=
  match c with
  | regex r _ => Regex.test r s
  | min n => Nat.leb n (js_length s)
  | max n => Nat.leb (js_length s) n
  | url => is_url s
  end.

(** The keys of the shape of [bankVerificationSchema]. *)
Definition required_keys : list string :=
  ["accountNumber"; "ifscCode"; "bankName"; "name"; "location";
   "documentType"; "documentNumber"].

Definition optional_keys : list string :=
  ["bio"; "specialties"; "experience"; "socials"].

Definition schema_keys : list string := required_keys ++ optional_keys.

(** The indices, counted from [i], of the elements that are not
    strings. *)
Fixpoint non_string_indices (i : nat) (l : list jsval) : list nat :=
  match l with
  | [] => []
  | v :: l' =>
      (if is_string v then [] else [i]) ++ non_string_indices (S i) l'
  end.

(** *** Records and their owners *)

Definition owner (doc : gmap string jsval) : option N :=
  match doc !! "userId" with
  | Some (VId i) => Some i
  | _ => None
  end.

(** The owners of the records of a collection, in order. *)
Definition owners (docs : list (gmap string jsval)) : list N :=
  omap owner docs.

(** The answer to a failure of the store. *)
Definition store_failure : Verify.response :=
  Verify.Response 500
    {[ "error" := VStr "Failed to validate and store form" ]}.

(** *** The two store calls of a request *)

(** The handler awaits the store twice, at [Artisan.findOne] (line 64)
    and at [artisan.save] (line 111), and holds no lock in between: the
    calls of other requests may come between the two. *)
Inductive progress :=
| Answered (res : Verify.response)
| Saving (place : option nat) (artisan : gmap string jsval).

(** Lines 38-109: validation, the lookup, and the record to save. *)
Definition until_save (is_url : string → bool) (issue_json : issue → jsval)
    (e : Verify.env) (req : Verify.request) (st : Verify.store)
    : progress * Verify.store :=
  match safeParse (Verify.bankVerificationSchema is_url) (Verify.body req) with
  | inl errors =>
      (Answered
         (Verify.Response 400
            (<["error" := VStr "Validation failed"]>
            (<["details" := VArr (issue_json <$> errors)]> ∅))),
       st)
  | inr data =>
      match Verify.findOne e (Verify.user_id req) st with
      | (inl _, st1) => (Answered store_failure, st1)
      | (inr None, st1) =>
          (Saving None (Verify.create_artisan e (Verify.user_id req) data),
           st1)
      | (inr (Some (i, artisan)), st1) =>
          (Saving (Some i) (Verify.update_artisan e data artisan), st1)
      end
  end.

(** Lines 111-128: the save and the answer. *)
Definition from_save (e : Verify.env) (p : progress) (st : Verify.store)
    : Verify.response * Verify.store :=
  match p with
  | Answered res => (res, st)
  | Saving place artisan =>
      match Verify.save e place artisan st with
      | (inl _, st2) => (store_failure, st2)
      | (inr _, st2) =>
          match Verify.acknowledge artisan with
          | inr res => (res, st2)
          | inl _ => (store_failure, st2)
          end
      end
  end.

(** *** Uploads *)

(** The promise pushed for an optional file (api.ts, lines 94-113 and
    125-130). *)
Definition file_promise (base : string)
    (net : Api.http_request → result Api.Response)
    (to_string : jsval → string) (file : option string)
    (type : Api.upload_type) (k : string)
    : list (result (gmap string jsval)) :=
  match file with
  | Some f =>
      [Api.then_ (upload_outcome base net to_string (f, type)) (Api.url_as k)]
  | None => []
  end.

(** The promise pushed for the product photos (lines 115-123). *)
Definition photos_promise (base : string)
    (net : Api.http_request → result Api.Response)
    (first_rejected : list js_error → js_error)
    (to_string : jsval → string) (photos : list string)
    : list (result (gmap string jsval)) :=
  if Nat.ltb 0 (length photos) then
    [Api.then_
       (Api.Promise_all first_rejected
          (upload_outcome base net to_string <$> photo_attachments photos))
       (λ results,
          Api.then_ (Api.urls_of results)
            (λ us, inr {[ "productPhotoUrls" := VArr us ]}))]
  else [].

(** [uploadPromises] when the uploads have been started. *)
Definition upload_promises (base : string)
    (net : Api.http_request → result Api.Response)
    (first_rejected : list js_error → js_error)
    (to_string : jsval → string) (data : Api.SellerFormData)
    : list (result (gmap string jsval)) :=
  file_promise base net to_string (Api.profilePhoto data) Api.image
    "profilePhotoUrl"
  ++ file_promise base net to_string (Api.gstCertificate data) Api.document
       "gstCertificateUrl"
  ++ file_promise base net to_string (Api.aadhaarProof data) Api.document
       "aadhaarProofUrl"
  ++ photos_promise base net first_rejected to_string
       (Api.productPhotos data)
  ++ file_promise base net to_string (Api.craftVideo data) Api.video
       "craftVideoUrl".

Definition raw_file_fields : list string :=
  ["profilePhoto"; "gstCertificate"; "aadhaarProof"; "productPhotos";
   "craftVideo"].

Definition url_fields : list string :=
  ["profilePhotoUrl"; "gstCertificateUrl"; "aadhaarProofUrl";
   "productPhotoUrls"; "craftVideoUrl"].

(** The upload of [a] is answered with an object whose [url] is the
    string [loc a]. *)
Definition served (base : string)
    (net : Api.http_request → result Api.Response)
    (to_string : jsval → string) (loc : string * Api.upload_type → string)
    (a : string * Api.upload_type) : Prop :=
  ∃ o, upload_outcome base net to_string a = inr (VObj o)
       ∧ o !! "url" = Some (VStr (loc a)).

(** What the promise of an optional file holds when its upload is
    served. *)
Definition url_entry (loc : string * Api.upload_type → string)
    (file : option string) (type : Api.upload_type) (k : string)
    : list (gmap string jsval) :=
  match file with
  | Some f => [{[ k := VStr (loc (f, type)) ]}]
  | None => []
  end.

(** The locations of the product photos, in the order of the photos. *)
Definition photo_urls (loc : string * Api.upload_type → string)
    (photos : list string) : list jsval :=
  (λ f, VStr (loc (f, Api.image))) <$> photos.

Definition photos_entry (loc : string * Api.upload_type → string)
    (photos : list string) : list (gmap string jsval) :=
  if Nat.ltb 0 (length photos)
  then [{[ "productPhotoUrls" := VArr (photo_urls loc photos) ]}]
  else [].

(** [uploadResults] when every upload is served. *)
Definition upload_results (loc : string * Api.upload_type → string)
    (data : Api.SellerFormData) : list (gmap string jsval) :=
  url_entry loc (Api.profilePhoto data) Api.image "profilePhotoUrl"
  ++ url_entry loc (Api.gstCertificate data) Api.document "gstCertificateUrl"
  ++ url_entry loc (Api.aadhaarProof data) Api.document "aadhaarProofUrl"
  ++ photos_entry loc (Api.productPhotos data)
  ++ url_entry loc (Api.craftVideo data) Api.video "craftVideoUrl".

(** A network that stores every file under its name. *)
Definition echo_net (req : Api.http_request) : result Api.Response :=
  match Api.content req with
  | Api.FormData f _ =>
      inr {| Api.ok := true;
             Api.body_json :=
               Some (VObj {[ "url" := VStr ("/files/" +:+ f) ]}) |}
  | _ => inr {| Api.ok := true; Api.body_json := Some (VObj ∅) |}
  end.

(** The keys of the shape of the socials. *)
Definition social_keys : list string := ["instagram"; "facebook"; "website"].

(** A record of owner 7 whose verification block holds a key of its own
    and an old bank sub-object. *)
Definition reviewed_record : gmap string jsval :=
  {[ "_id" := VId 9;
     "userId" := VId 7;
     "name" := VStr "J.";
     "verification" :=
       VObj {[ "isVerified" := VBool false;
               "reviewer" := VStr "bob";
               "bankDetails" := VObj {[ "branch" := VStr "Pune" ]} ]} ]}.

(** The example payload with a location of more than the shape has, and
    with socials. *)
Definition detailed_payload : gmap string jsval :=
  <["location" :=
      VObj {[ "city" := VStr "Pune"; "state" := VStr "MH";
              "zip" := VStr "411001" ]}]>
  (<["socials" :=
       VObj {[ "instagram" := VStr "@looms"; "tiktok" := VStr "@looms" ]}]>
   (sample_payload "123456789")).

Definition detailed_data : Verify.VerificationData :=
  {| Verify.accountNumber := "123456789";
     Verify.ifscCode := "ABCD0123456";
     Verify.bankName := "Test Bank";
     Verify.name := "Jane";
     Verify.bio := None;
     Verify.location :=
       {| Verify.city := "Pune"; Verify.state := "MH";
          Verify.country := "India" |};
     Verify.specialties := None;
     Verify.experience := None;
     Verify.socials :=
       Some {| Verify.instagram := Some "@looms"; Verify.facebook := None;
               Verify.website := None |};
     Verify.documentType := "aadhar";
     Verify.documentNumber := "X1" |}.

(** A second owner's record. *)
Definition other_record : gmap string jsval :=
  {[ "_id" := VId 3; "userId" := VId 8; "name" := VStr "K." ]}.

End Vocabulary.

(* ===================================================================== *)
(** ** The two patterns of the schema *)
(* ===================================================================== *)

Module RegexFacts.
Import Regex Reading.

Lemma single_Digit : single Digit is_digit.
Proof. done. Qed.

Lemma single_Cls rs : single (Cls rs) (in_class rs).
Proof. done. Qed.

Lemma single_Chr c : single (Chr c) (Ascii.eqb c).
Proof. done. Qed.

Lemma length_chars s : length (chars s) = String.length s.
Proof. induction s as [|c s IH]; simpl; [done | by rewrite <- IH]. Qed.

(** A bounded repetition of a one-character pattern matches a prefix of
    [m] characters of the class, for some [m] within the bounds. *)
Lemma rep_loop_single r p (k : cont) :
  single r p →
  ∀ n lo pos s,
    rep_loop (run r) k n lo pos s = true
    ↔ ∃ m, lo ≤ m ≤ n ∧ m ≤ length s
           ∧ forallb p (take m s) = true ∧ k (pos + m) (drop m s) = true.
Proof.
  intros Hr. induction n as [|n IH]; intros lo pos s; simpl.
  - rewrite andb_true_iff, Nat.eqb_eq. split.
    + intros [-> Hk]. exists 0. rewrite Nat.add_0_r, drop_0.
      repeat split; auto with lia.
    + intros (m & Hm & _ & _ & Hk).
      assert (m = 0) as -> by lia.
      rewrite Nat.add_0_r, drop_0 in Hk. split; [lia | done].
  - rewrite orb_true_iff, Hr, andb_true_iff, Nat.eqb_eq. split.
    + intros [Hstep | [-> Hk]].
      * destruct s as [|c t]; [done |].
        apply andb_true_iff in Hstep as [Hc Hrest].
        apply IH in Hrest as (m & Hm & Hlen & Hall & Hk).
        exists (S m). simpl. rewrite Hc, Hall.
        replace (pos + S m) with (S pos + m) by lia.
        repeat split; auto with lia.
      * exists 0. rewrite Nat.add_0_r, drop_0.
        repeat split; auto with lia.
    + intros ([|m] & Hm & Hlen & Hall & Hk).
      * right. rewrite Nat.add_0_r, drop_0 in Hk. split; [lia | done].
      * left. destruct s as [|c t]; simpl in Hlen; [lia |].
        simpl in Hall. apply andb_true_iff in Hall as [Hc Hall].
        rewrite Hc. simpl. apply IH. exists m.
        replace (S pos + m) with (pos + S m) by lia.
        repeat split; auto with lia.
Qed.

(** A pattern that opens with [^] can only match at index 0. *)
Lemma test_Bol r s :
  test (Seq Bol r) s = run r 0 (chars s) (λ _ _, true).
Proof.
  unfold test. fold (chars s). cbn [seq existsb]. rewrite drop_0.
  cbn [run Nat.eqb andb].
  match goal with
  | |- _ || ?rest = _ => enough (rest = false) as -> by apply orb_false_r
  end.
  apply not_true_is_false. intros Hex.
  apply existsb_exists in Hex as (i & Hi & Hrun).
  apply in_seq in Hi. destruct i as [|i]; [lia |]. done.
Qed.

Lemma Eol_end pos s : run Eol pos s (λ _ _, true) = true ↔ s = [].
Proof. destruct s; simpl; split; done. Qed.

Lemma drop_nil_take {A} (m : nat) (l : list A) :
  m ≤ length l → drop m l = [] → m = length l ∧ take m l = l.
Proof.
  intros Hle Hd. assert (length (drop m l) = 0) as Hz by by rewrite Hd.
  rewrite length_drop in Hz. assert (m = length l) as -> by lia.
  by rewrite firstn_all.
Qed.

Lemma run_Seq r1 r2 pos s k :
  run (Seq r1 r2) pos s k = run r1 pos s (λ p t, run r2 p t k).
Proof. done. Qed.

Lemma run_Rep r lo hi pos s k :
  run (Rep r lo hi) pos s k = rep_loop (run r) k hi lo pos s.
Proof. done. Qed.

(** [/^\d{9,18}$/] accepts exactly the strings of 9 to 18 digits. *)
Lemma accountNumber_re_spec s :
  test Verify.accountNumber_re s = digits_9_to_18 s.
Proof.
  unfold Verify.accountNumber_re. rewrite test_Bol, run_Seq, run_Rep.
  apply eq_true_iff_eq.
  rewrite (rep_loop_single Digit is_digit _ single_Digit).
  unfold digits_9_to_18.
  rewrite !andb_true_iff, !Nat.leb_le. split.
  - intros (m & Hm & Hlen & Hall & Hend).
    apply (Eol_end 0) in Hend.
    destruct (drop_nil_take m (chars s) Hlen Hend) as [-> Htake].
    rewrite Htake in Hall. split; [lia | done].
  - intros [[Hlo Hhi] Hall]. exists (length (chars s)).
    rewrite firstn_all, drop_all. repeat split; auto with lia.
Qed.

Lemma in_class_upper c : in_class [("A", "Z")%char] c = is_upper c.
Proof. unfold in_class. simpl. apply orb_false_r. Qed.

Lemma in_class_upper_digit c :
  in_class [("A", "Z")%char; ("0", "9")%char] c = is_upper_or_digit c.
Proof. unfold in_class. simpl. by rewrite orb_false_r. Qed.

Lemma forallb_ext_eq {A} (f g : A → bool) l :
  (∀ x, f x = g x) → forallb f l = forallb g l.
Proof. intros H. induction l; simpl; [done | by rewrite H, IHl]. Qed.

(** [/^[A-Z]{4}0[A-Z0-9]{6}$/] accepts exactly: 4 uppercase letters, a
    zero, 6 characters that are uppercase letters or digits. *)
Lemma ifscCode_re_spec s :
  test Verify.ifscCode_re s = ifsc_form is_upper_or_digit s.
Proof.
  unfold Verify.ifscCode_re. rewrite test_Bol, run_Seq, run_Rep.
  apply eq_true_iff_eq.
  rewrite (rep_loop_single _ _ _ (single_Cls _)).
  unfold ifsc_form. generalize (chars s) as cs. intros cs.
  rewrite !andb_true_iff, Nat.eqb_eq. split.
  - intros (m & Hm & Hlen & Hall & Hk).
    assert (m = 4) as -> by lia.
    rewrite run_Seq, single_Chr in Hk.
    destruct (drop 4 cs) as [|c t] eqn:Hdrop; [done |].
    apply andb_true_iff in Hk as [Hc Hk].
    rewrite run_Seq, run_Rep in Hk.
    apply (rep_loop_single _ _ _ (single_Cls _)) in Hk
      as (m & Hm' & Hlen' & Hall' & Hend).
    assert (m = 6) as -> by lia.
    apply (Eol_end 0) in Hend.
    destruct (drop_nil_take 6 t Hlen' Hend) as [Ht Htake].
    rewrite Htake in Hall'.
    assert (length (drop 4 cs) = 7) as Hl by (rewrite Hdrop; simpl; lia).
    rewrite length_drop in Hl.
    assert (cs !! 4 = Some c) as H4.
    { rewrite <- (Nat.add_0_r 4), <- lookup_drop, Hdrop. done. }
    assert (drop 5 cs = t) as H5.
    { apply (drop_S _ _ 4) in H4. rewrite Hdrop in H4. congruence. }
    rewrite H4, H5.
    rewrite (forallb_ext_eq _ _ _ in_class_upper) in Hall.
    rewrite (forallb_ext_eq _ _ _ in_class_upper_digit) in Hall'.
    repeat split; auto with lia.
  - intros [[[Hlen Hhead] Hzero] Htail].
    exists 4. rewrite (forallb_ext_eq _ _ _ in_class_upper).
    repeat split; [lia | lia | lia | done |].
    rewrite run_Seq, single_Chr.
    destruct (cs !! 4) as [c|] eqn:H4; [|done].
    assert (drop 4 cs = c :: drop 5 cs) as ->.
    { change 5 with (S 4). by apply drop_S. }
    rewrite Hzero, andb_true_l, run_Seq, run_Rep.
    apply (rep_loop_single _ _ _ (single_Cls _)).
    assert (length (drop 5 cs) = 6) as Hl by (rewrite length_drop; lia).
    exists (length (drop 5 cs)).
    rewrite (forallb_ext_eq _ _ _ in_class_upper_digit).
    rewrite firstn_all, drop_all.
    repeat split; auto with lia.
Qed.

End RegexFacts.

(* ===================================================================== *)
(** ** The validator *)
(* ===================================================================== *)

Module ZodFacts.
Import Zod Reading.

Lemma issues_of_ap {A B} (f : parsed (A → B)) (x : parsed A) :
  issues_of (ap f x) = issues_of f ++ issues_of x.
Proof. destruct f, x; simpl; by rewrite ?app_nil_r. Qed.

Lemma all_issues_ap {A B} (P : issue → Prop)
    (f : parsed (A → B)) (x : parsed A) :
  Forall P (issues_of f) → Forall P (issues_of x) →
  Forall P (issues_of (ap f x)).
Proof. intros Hf Hx. rewrite issues_of_ap. by apply Forall_app. Qed.

Lemma ap_inr {A B} (f : parsed (A → B)) (x : parsed A) (b : B) :
  ap f x = inr b → ∃ g a, f = inr g ∧ x = inr a ∧ b = g a.
Proof. destruct f, x; simpl; intros [= <-]; eauto. Qed.

Lemma issues_of_inl {A} (r : parsed A) e : r = inl e → issues_of r = e.
Proof. by intros ->. Qed.

Lemma proper_inl {A} (r : parsed A) e : proper r → r = inl e → e ≠ [].
Proof. intros Hp -> ->. by apply Hp. Qed.

Lemma proper_pure {A} (a : A) : proper (pure a).
Proof. done. Qed.

Lemma proper_ap {A B} (f : parsed (A → B)) (x : parsed A) :
  proper f → proper x → proper (ap f x).
Proof.
  unfold proper.
  destruct f as [e1|g], x as [e2|a]; simpl; intros H1 H2; try done.
  all: intros [= He]; try apply app_eq_nil in He as [He _]; subst.
  all: by (apply H1 || apply H2).
Qed.

(** *** Every schema is proper *)

Section Proper.
Variable is_url : string → bool.

Lemma proper_string checks p v : proper (z_string is_url checks p v).
Proof.
  unfold z_string. destruct v; try done.
  by destruct (flat_map _ _).
Qed.

Lemma proper_number lo p v : proper (z_number_min lo p v).
Proof.
  unfold z_number_min. destruct v; try done. by destruct (Qle_bool _ _).
Qed.

Lemma proper_enum values p v : proper (z_enum values p v).
Proof. unfold z_enum. destruct v; try done. by destruct (existsb _ _). Qed.

Lemma proper_optional {A} (inner : schema A) p v :
  (∀ p v, proper (inner p v)) → proper (z_optional inner p v).
Proof.
  intros Hin. unfold z_optional. destruct (is_undefined v); [done |].
  specialize (Hin p v). destruct (inner p v) as [e|a]; [|done].
  intros [= ->]. by apply Hin.
Qed.

Lemma proper_default {A} (inner : schema A) d p v :
  (∀ p v, proper (inner p v)) → proper (z_default inner d p v).
Proof. intros Hin. apply Hin. Qed.

Lemma proper_array_items {A} (inner : schema A) p i l :
  (∀ p v, proper (inner p v)) → proper (array_items inner p i l).
Proof.
  intros Hin. revert i.
  induction l as [|v l IH]; intros i; cbn [array_items]; [done |].
  apply proper_ap; [apply proper_ap; [done | apply Hin] | apply IH].
Qed.

Lemma proper_array {A} (inner : schema A) p v :
  (∀ p v, proper (inner p v)) → proper (z_array inner p v).
Proof.
  intros Hin. unfold z_array. destruct v; try done.
  by apply proper_array_items.
Qed.

Lemma proper_object {A} (fields : _ → _ → parsed A) p v :
  (∀ p o, proper (fields p o)) → proper (z_object fields p v).
Proof. intros Hf. unfold z_object. destruct v; (done || apply Hf). Qed.

Lemma proper_field {A} k (s : schema A) p o :
  (∀ p v, proper (s p v)) → proper (field k s p o).
Proof. intros Hs. apply Hs. Qed.
End Proper.

(** *** Every schema is rooted *)

Lemma prefix_of_snoc {A} (p : list A) x q :
  (p ++ [x]) `prefix_of` q → p `prefix_of` q.
Proof. intros [k ->]. exists (x :: k). by rewrite <- app_assoc. Qed.

Lemma rooted_ap {A B} (f : parsed (A → B)) (x : parsed A) p :
  (∀ i, i ∈ issues_of f → p `prefix_of` path i) →
  (∀ i, i ∈ issues_of x → p `prefix_of` path i) →
  ∀ i, i ∈ issues_of (ap f x) → p `prefix_of` path i.
Proof.
  intros Hf Hx i. rewrite issues_of_ap, elem_of_app. intros [?|?]; auto.
Qed.

(** Membership in a list of no issue, or of one issue at the path. *)
Ltac one_issue :=
  let H := fresh in
  intros H;
  first [ by apply elem_of_nil in H
        | apply list_elem_of_singleton in H; by subst ].

Lemma rooted_pure {A} (a : A) p :
  ∀ i, i ∈ issues_of (pure a) → p `prefix_of` path i.
Proof. intros i. one_issue. Qed.

Section Rooted.
Variable is_url : string → bool.

Lemma check_string_path p s c i :
  i ∈ check_string is_url p s c → path i = p.
Proof. destruct c; simpl; repeat case_match; one_issue. Qed.

Lemma rooted_string checks : rooted (z_string is_url checks).
Proof.
  intros p v i. unfold z_string. destruct v; simpl; try one_issue.
  destruct (flat_map _ _) as [|i0 e] eqn:Hfm; simpl; [one_issue |].
  rewrite <- Hfm, list_elem_of_In, in_flat_map.
  intros (c & _ & Hi%list_elem_of_In).
  by rewrite (check_string_path _ _ _ _ Hi).
Qed.

Lemma rooted_number lo : rooted (z_number_min lo).
Proof.
  intros p v i. unfold z_number_min. destruct v; simpl; try one_issue.
  destruct (Qle_bool _ _); simpl; one_issue.
Qed.

Lemma rooted_enum values : rooted (z_enum values).
Proof.
  intros p v i. unfold z_enum. destruct v; simpl; try one_issue.
  destruct (existsb _ _); simpl; one_issue.
Qed.

Lemma rooted_optional {A} (inner : schema A) :
  rooted inner → rooted (z_optional inner).
Proof.
  intros Hin p v i. unfold z_optional.
  destruct (is_undefined v); simpl; [one_issue |].
  specialize (Hin p v i). destruct (inner p v); simpl in *; [done |].
  one_issue.
Qed.

Lemma rooted_default {A} (inner : schema A) d :
  rooted inner → rooted (z_default inner d).
Proof. intros Hin p v i. apply Hin. Qed.

Lemma rooted_array_items {A} (inner : schema A) p n l :
  rooted inner →
  ∀ i, i ∈ issues_of (array_items inner p n l) → p `prefix_of` path i.
Proof.
  intros Hin. revert n.
  induction l as [|v l IH]; intros n; cbn [array_items].
  - intros i. one_issue.
  - apply rooted_ap; [apply rooted_ap; [apply rooted_pure |] | apply IH].
    intros i Hi. eapply prefix_of_snoc, Hin, Hi.
Qed.

Lemma rooted_array {A} (inner : schema A) :
  rooted inner → rooted (z_array inner).
Proof.
  intros Hin p v i. unfold z_array. destruct v; simpl; try one_issue.
  by apply rooted_array_items.
Qed.

Lemma rooted_object {A} (fields : _ → _ → parsed A) :
  (∀ p o i, i ∈ issues_of (fields p o) → p `prefix_of` path i) →
  rooted (z_object fields).
Proof.
  intros Hf p v i. unfold z_object. destruct v; simpl; try one_issue.
  apply Hf.
Qed.

(** The issues of the key [k] sit at or below [p ++ [Key k]]. *)
Lemma rooted_field {A} k (s : schema A) p o :
  rooted s →
  ∀ i, i ∈ issues_of (field k s p o) → (p ++ [Key k]) `prefix_of` path i.
Proof. intros Hs i. apply Hs. Qed.

Lemma rooted_field_up {A} k (s : schema A) p o :
  rooted s → ∀ i, i ∈ issues_of (field k s p o) → p `prefix_of` path i.
Proof. intros Hs i Hi. eapply prefix_of_snoc, rooted_field; eauto. Qed.
End Rooted.

End ZodFacts.

(* ===================================================================== *)
(** ** The schema of the verification endpoint *)
(* ===================================================================== *)

Module SchemaFacts.
Import Regex Zod Verify Reading RegexFacts ZodFacts.

Create HintDb schema.

#[export] Hint Resolve rooted_string rooted_number rooted_enum
  rooted_optional rooted_default rooted_array : schema.
#[export] Hint Resolve proper_string proper_number proper_enum
  proper_optional proper_default proper_array proper_object proper_field
  proper_ap proper_pure : schema.

(** The issues of an object schema, key by key. *)
Ltac by_fields :=
  repeat apply rooted_ap;
  [ apply rooted_pure | apply rooted_field_up; eauto with schema .. ].

Section SchemaLaws.
Variable is_url : string → bool.

Lemma rooted_location : rooted (location_schema is_url).
Proof. apply rooted_object. intros p o. by_fields. Qed.

Lemma rooted_socials : rooted (socials_schema is_url).
Proof. apply rooted_object. intros p o. by_fields. Qed.

Hint Resolve rooted_location rooted_socials : schema.

Lemma rooted_schema : rooted (bankVerificationSchema is_url).
Proof. apply rooted_object. intros p o. by_fields. Qed.

Lemma proper_location p v : proper (location_schema is_url p v).
Proof. apply proper_object. intros; eauto 10 with schema. Qed.

Lemma proper_socials p v : proper (socials_schema is_url p v).
Proof. apply proper_object. intros; eauto 10 with schema. Qed.

Hint Resolve proper_location proper_socials : schema.

(** A payload that fails validation fails with at least one issue. *)
Lemma proper_schema p v : proper (bankVerificationSchema is_url p v).
Proof. apply proper_object. intros; eauto 20 with schema. Qed.

(** *** Field-level errors *)

Lemma field_errors_ap {A B} k (f : parsed (A → B)) (x : parsed A) :
  field_errors k (ap f x) = field_errors k f ++ field_errors k x.
Proof. unfold field_errors. by rewrite issues_of_ap, List.filter_app. Qed.

Lemma field_errors_pure {A} k (a : A) : field_errors k (pure a) = [].
Proof. done. Qed.

Lemma filter_all {A} (f : A → bool) l :
  (∀ x, x ∈ l → f x = true) → List.filter f l = l.
Proof.
  induction l as [|x l IH]; intros H; simpl; [done |].
  rewrite H by left. rewrite IH; [done |]. intros y Hy. apply H. by right.
Qed.

Lemma filter_none {A} (f : A → bool) l :
  (∀ x, x ∈ l → f x = false) → List.filter f l = [].
Proof.
  induction l as [|x l IH]; intros H; simpl; [done |].
  rewrite H by left. apply IH. intros y Hy. apply H. by right.
Qed.

(** The errors on [k] among the issues of the top-level key [k']. *)
Lemma field_errors_field {A} k k' (s : schema A) o :
  rooted s →
  field_errors k (field k' s [] o)
  = if String.eqb k k' then issues_of (field k' s [] o) else [].
Proof.
  intros Hs. unfold field_errors.
  assert (∀ i, i ∈ issues_of (field k' s [] o)
               → on_field k i = String.eqb k k') as Hon.
  { intros i Hi. apply (rooted_field k' s [] o Hs) in Hi as [q Hq].
    unfold on_field. by rewrite Hq. }
  destruct (String.eqb k k'); [by apply filter_all | by apply filter_none].
Qed.

Lemma field_errors_rejected {A} k (r : parsed A) :
  field_errors k r ≠ [] → ∃ errs, r = inl errs.
Proof. destruct r; [eauto | done]. Qed.
End SchemaLaws.

#[export] Hint Resolve rooted_location rooted_socials : schema.
#[export] Hint Resolve proper_location proper_socials : schema.

(** The errors on one top-level key of a payload that is an object are
    the issues of that key's schema. *)
Ltac errors_of_key :=
  unfold safeParse, bankVerificationSchema, z_object;
  rewrite !field_errors_ap, field_errors_pure;
  rewrite !field_errors_field by eauto with schema;
  cbn [String.eqb Ascii.eqb Bool.eqb app];
  rewrite ?app_nil_r.

Lemma forallb_Forall {A} (f : A → bool) l :
  forallb f l = true ↔ Forall (λ x, f x = true) l.
Proof.
  induction l as [|x l IH]; simpl; [by split |].
  rewrite andb_true_iff, Forall_cons, IH. done.
Qed.

Lemma forallb_Exists {A} (f : A → bool) l :
  forallb f l = false ↔ Exists (λ x, f x = false) l.
Proof.
  induction l as [|x l IH]; simpl.
  - split; [done | by intros ?%Exists_nil].
  - rewrite andb_false_iff, Exists_cons, IH. done.
Qed.

(** "Fewer than 9 digits, more than 18 digits, or a character that is
    not a digit" is the failure of "9 to 18 decimal digits". *)
Lemma digits_9_to_18_false s :
  digits_9_to_18 s = false
  ↔ String.length s < 9 ∨ 18 < String.length s
    ∨ Exists (λ c, is_digit c = false) (chars s).
Proof.
  unfold digits_9_to_18.
  rewrite !andb_false_iff, !Nat.leb_gt, forallb_Exists, length_chars.
  tauto.
Qed.

Lemma digits_9_to_18_true s :
  digits_9_to_18 s = true
  ↔ 9 ≤ String.length s ≤ 18 ∧ Forall (λ c, is_digit c = true) (chars s).
Proof.
  unfold digits_9_to_18.
  rewrite !andb_true_iff, !Nat.leb_le, forallb_Forall, length_chars.
  tauto.
Qed.

(** The errors on [accountNumber] of a payload whose account number is
    the string [s]. *)
Lemma accountNumber_errors is_url o s :
  o !! "accountNumber" = Some (VStr s) →
  field_errors "accountNumber"
    (safeParse (bankVerificationSchema is_url) (VObj o))
  = if digits_9_to_18 s then []
    else [Issue invalid_string [Key "accountNumber"]
            (Some "Account number must be 9-18 digits")].
Proof.
  intros Hs. errors_of_key.
  unfold field, get. rewrite Hs.
  cbn [from_option id z_string flat_map check_string app].
  rewrite accountNumber_re_spec. by destruct (digits_9_to_18 s).
Qed.

Lemma ifscCode_errors is_url o s :
  o !! "ifscCode" = Some (VStr s) →
  field_errors "ifscCode"
    (safeParse (bankVerificationSchema is_url) (VObj o))
  = if ifsc_form is_upper_or_digit s then []
    else [Issue invalid_string [Key "ifscCode"]
            (Some "Invalid IFSC code format")].
Proof.
  intros Hs. errors_of_key.
  unfold field, get. rewrite Hs.
  cbn [from_option id z_string flat_map check_string app].
  rewrite ifscCode_re_spec. by destruct (ifsc_form _ s).
Qed.

End SchemaFacts.

(* ===================================================================== *)
(** ** Properties of the validation rules *)
(* ===================================================================== *)

Module Rules.
Import Regex Zod Verify Reading RegexFacts ZodFacts SchemaFacts.

(** C3. A payload whose [accountNumber] is a string with fewer than 9
    characters, more than 18, or a character that is not a decimal digit
    is rejected, and the one error on [accountNumber] is the regex
    failure with the schema's message; a string of 9 to 18 decimal
    digits raises no error on [accountNumber]. *)
Theorem accountNumber_rule (is_url : string → bool)
    (o : gmap string jsval) (s : string) :
  o !! "accountNumber" = Some (VStr s) →
  let r := safeParse (bankVerificationSchema is_url) (VObj o) in
  (String.length s < 9 ∨ 18 < String.length s
   ∨ Exists (λ c, is_digit c = false) (chars s) →
     (∃ errs, r = inl errs)
     ∧ field_errors "accountNumber" r
       = [Issue invalid_string [Key "accountNumber"]
            (Some "Account number must be 9-18 digits")])
  ∧ (9 ≤ String.length s ≤ 18
     ∧ Forall (λ c, is_digit c = true) (chars s) →
     field_errors "accountNumber" r = []).
Proof.
  intros Hs r.
  pose proof (accountNumber_errors is_url o s Hs) as He. fold r in He.
  split.
  - intros Hbad%digits_9_to_18_false. rewrite Hbad in He. split; [|done].
    apply (field_errors_rejected "accountNumber"). by rewrite He.
  - intros Hgood%digits_9_to_18_true. by rewrite Hgood in He.
Qed.

Lemma accountNumber_rule_witness :
  ((∃ errs,
      safeParse (bankVerificationSchema (λ _, true))
        (VObj {[ "accountNumber" := VStr "12345" ]}) = inl errs)
   ∧ field_errors "accountNumber"
       (safeParse (bankVerificationSchema (λ _, true))
          (VObj {[ "accountNumber" := VStr "12345" ]}))
     = [Issue invalid_string [Key "accountNumber"]
          (Some "Account number must be 9-18 digits")])
  ∧ field_errors "accountNumber"
      (safeParse (bankVerificationSchema (λ _, true))
         (VObj {[ "accountNumber" := VStr "123456789" ]}))
    = [].
Proof.
  split.
  - apply (accountNumber_rule (λ _, true)
             {[ "accountNumber" := VStr "12345" ]} "12345");
      [reflexivity | left; simpl; lia].
  - apply (accountNumber_rule (λ _, true)
             {[ "accountNumber" := VStr "123456789" ]} "123456789");
      [reflexivity |].
    split; [simpl; lia | repeat constructor].
Defined.

(** C4, as the specification words it, fails: a string of 4 uppercase
    letters, a zero and 6 alphanumeric characters of which some are
    lowercase letters has the stated form and is rejected. *)
Lemma ifscCode_lowercase_rejected :
  ifsc_form is_alphanumeric "ABCD0abc123" = true
  ∧ field_errors "ifscCode"
      (safeParse (bankVerificationSchema (λ _, true))
         (VObj {[ "ifscCode" := VStr "ABCD0abc123" ]}))
    = [Issue invalid_string [Key "ifscCode"]
         (Some "Invalid IFSC code format")].
Proof.
  split; by vm_compute.
Qed.

(** C4, amended. A payload whose [ifscCode] is a string not of the form
    4 uppercase letters, a zero, 6 characters that are uppercase letters
    or digits is rejected, and the one error on [ifscCode] is the regex
    failure with the schema's message; a string of that form raises no
    error on [ifscCode]. *)
Theorem ifscCode_rule (is_url : string → bool)
    (o : gmap string jsval) (s : string) :
  o !! "ifscCode" = Some (VStr s) →
  let r := safeParse (bankVerificationSchema is_url) (VObj o) in
  (ifsc_form is_upper_or_digit s = false →
     (∃ errs, r = inl errs)
     ∧ field_errors "ifscCode" r
       = [Issue invalid_string [Key "ifscCode"]
            (Some "Invalid IFSC code format")])
  ∧ (ifsc_form is_upper_or_digit s = true →
     field_errors "ifscCode" r = []).
Proof.
  intros Hs r.
  pose proof (ifscCode_errors is_url o s Hs) as He. fold r in He.
  split.
  - intros Hbad. rewrite Hbad in He. split; [|done].
    apply (field_errors_rejected "ifscCode"). by rewrite He.
  - intros Hgood. by rewrite Hgood in He.
Qed.

Lemma ifscCode_rule_witness :
  ((∃ errs,
      safeParse (bankVerificationSchema (λ _, true))
        (VObj {[ "ifscCode" := VStr "abcd0123456" ]}) = inl errs)
   ∧ field_errors "ifscCode"
       (safeParse (bankVerificationSchema (λ _, true))
          (VObj {[ "ifscCode" := VStr "abcd0123456" ]}))
     = [Issue invalid_string [Key "ifscCode"]
          (Some "Invalid IFSC code format")])
  ∧ field_errors "ifscCode"
      (safeParse (bankVerificationSchema (λ _, true))
         (VObj {[ "ifscCode" := VStr "ABCD0123456" ]}))
    = [].
Proof.
  split.
  - apply (ifscCode_rule (λ _, true)
             {[ "ifscCode" := VStr "abcd0123456" ]} "abcd0123456");
      reflexivity.
  - apply (ifscCode_rule (λ _, true)
             {[ "ifscCode" := VStr "ABCD0123456" ]} "ABCD0123456");
      reflexivity.
Defined.

End Rules.

(* ===================================================================== *)
(** ** The handler of POST /api/verify/bank-account *)
(* ===================================================================== *)

Module HandlerFacts.
Import Regex Zod Verify Reading Vocabulary ZodFacts SchemaFacts.

(** Reading a property of an object literal. *)
Ltac look :=
  repeat first
    [ rewrite lookup_insert_eq
    | rewrite lookup_insert_ne by done
    | rewrite lookup_singleton_eq
    | rewrite lookup_singleton_ne by done
    | rewrite lookup_empty ].

Lemma is_undefined_true v : is_undefined v = true → v = VUndef.
Proof. by destruct v. Qed.

(** *** What a valid payload holds *)

Lemma string_inr is_url checks p v s :
  z_string is_url checks p v = inr s → v = VStr s.
Proof.
  unfold z_string. destruct v; try done.
  destruct (flat_map _ _); [by intros [= ->] | done].
Qed.

Lemma number_inr lo p v q : z_number_min lo p v = inr q → v = VNum q.
Proof.
  unfold z_number_min. destruct v; try done.
  destruct (Qle_bool _ _); [by intros [= ->] | done].
Qed.

Lemma enum_inr values p v s : z_enum values p v = inr s → v = VStr s.
Proof.
  unfold z_enum. destruct v; try done.
  destruct (existsb _ _); [by intros [= ->] | done].
Qed.

Lemma optional_inr {A} (inner : schema A) p v x :
  z_optional inner p v = inr x →
  match x with
  | None => v = VUndef
  | Some a => is_undefined v = false ∧ inner p v = inr a
  end.
Proof.
  unfold z_optional. destruct (is_undefined v) eqn:Hv.
  - intros [= <-]. by apply is_undefined_true.
  - destruct (inner p v); [done |]. by intros [= <-].
Qed.

Lemma strings_inr is_url p n l ss :
  array_items (z_string is_url []) p n l = inr ss → l = VStr <$> ss.
Proof.
  revert n ss. induction l as [|v l IH]; intros n ss; cbn [array_items].
  - by intros [= <-].
  - intros (g & ss' & (c & s & [= <-] & Hs & ->)%ap_inr & Hl & ->)%ap_inr.
    apply string_inr in Hs as ->. apply IH in Hl as ->. done.
Qed.

Lemma array_inr is_url p v ss :
  z_array (z_string is_url []) p v = inr ss → v = specialties_val ss.
Proof.
  unfold z_array. destruct v; try done.
  intros ->%strings_inr. done.
Qed.

Lemma object_inr {A} (fields : _ → _ → parsed A) p v a :
  z_object fields p v = inr a → ∃ o, v = VObj o ∧ fields p o = inr a.
Proof. unfold z_object. destruct v; try done. eauto. Qed.

(** The parsed data of a valid payload is what the payload holds: each
    required field is the string of the request, each optional field is
    there exactly when the request carries it. *)
Lemma valid_payload is_url v d :
  safeParse (bankVerificationSchema is_url) v = inr d →
  ∃ o, v = VObj o
    ∧ get o "accountNumber" = VStr (accountNumber d)
    ∧ get o "ifscCode" = VStr (ifscCode d)
    ∧ get o "bankName" = VStr (bankName d)
    ∧ get o "name" = VStr (name d)
    ∧ get o "bio" = opt VStr (bio d)
    ∧ get o "specialties" = opt specialties_val (specialties d)
    ∧ get o "experience" = opt VNum (experience d)
    ∧ present o "socials" = negb (is_undefined (opt socials_val (socials d)))
    ∧ present o "location" = true
    ∧ get o "documentType" = VStr (documentType d)
    ∧ get o "documentNumber" = VStr (documentNumber d).
Proof.
  unfold safeParse, bankVerificationSchema.
  intros (o & -> & H)%object_inr. exists o. split; [done |].
  repeat
    (apply ap_inr in H as (? & ? & H & ? & ->)).
  injection H as <-. unfold field in *. cbn [accountNumber ifscCode
    bankName name bio specialties experience socials documentType
    documentNumber location].
  repeat match goal with
    | H : z_string _ _ _ _ = inr _ |- _ => apply string_inr in H
    | H : z_enum _ _ _ = inr _ |- _ => apply enum_inr in H
    | H : z_optional _ _ _ = inr _ |- _ => apply optional_inr in H
    | H : z_object _ _ _ = inr _ |- _ =>
        apply object_inr in H as (? & ? & _)
    end.
  unfold present.
  repeat match goal with
    | H : match ?x with Some _ => _ | None => _ end |- _ =>
        destruct x; [destruct H as [? H] |]
    | H : z_string _ _ _ _ = inr _ |- _ => apply string_inr in H
    | H : z_array _ _ _ = inr _ |- _ => apply array_inr in H
    | H : z_number_min _ _ _ = inr _ |- _ => apply number_inr in H
    | H : location_schema _ _ _ = inr _ |- _ =>
        apply object_inr in H as (? & ? & _)
    | H : socials_schema _ _ _ = inr _ |- _ =>
        apply object_inr in H as (? & ? & _)
    end.
  all: repeat match goal with H : get _ _ = _ |- _ => rewrite H end.
  all: done.
Qed.

Lemma last_two {A} (l : list A) a b : last (l ++ [a; b]) = Some b.
Proof.
  change (l ++ [a; b]) with (l ++ [a] ++ [b]).
  rewrite app_assoc. apply last_snoc.
Qed.

(** *** The two branches *)

Lemma get_Some (o : gmap string jsval) k v : o !! k = Some v → get o k = v.
Proof. unfold get. by intros ->. Qed.

Lemma create_verification e uid d :
  create_artisan e uid d !! "verification" = Some (VObj (verified_block e d)).
Proof. unfold create_artisan, Artisan. by look. Qed.

Lemma update_verification e d artisan :
  update_artisan e d artisan !! "verification"
  = Some (VObj (verification_update e d (get artisan "verification"))).
Proof.
  unfold update_artisan, assign_if. cbn zeta. look.
  repeat case_match; unfold get; by look.
Qed.

Lemma verification_update_isVerified e d old :
  verification_update e d old !! "isVerified" = Some (VBool true).
Proof. unfold verification_update. by look. Qed.

Lemma update_name e d artisan :
  update_artisan e d artisan !! "name" = Some (VStr (name d)).
Proof.
  unfold update_artisan, assign_if. cbn zeta. look.
  repeat case_match; by look.
Qed.

(** Keys that the old block holds beyond the five that the handler
    writes are carried over by the spread. *)
Lemma verification_update_keeps e d old k :
  k ∉ verification_fields →
  verification_update e d old !! k = spread old !! k.
Proof.
  unfold verification_fields, verification_update. intros Hk.
  rewrite !lookup_insert_ne by set_solver. done.
Qed.

(** On a block that has only the fields of the data model, nothing of
    the old block is left. *)
Lemma verification_update_replaces e d old :
  dom (spread old) ⊆ verification_fields →
  verification_update e d old = verified_block e d.
Proof.
  intros Hdom. apply map_eq. intros k.
  destruct (decide (k ∈ verification_fields)) as [Hk|Hk].
  - unfold verification_fields in Hk.
    rewrite !elem_of_union, !elem_of_singleton in Hk.
    unfold verification_update, verified_block.
    destruct Hk as [[[[-> | ->] | ->] | ->] | ->]; by look.
  - rewrite verification_update_keeps by done.
    assert (k ∉ dom (spread old)) as Hno by set_solver.
    apply not_elem_of_dom in Hno. rewrite Hno.
    unfold verification_fields, verified_block in *.
    symmetry.
    rewrite !lookup_insert_ne, lookup_singleton_ne by set_solver. done.
Qed.

(** When both store calls succeed, the form is stored and acknowledged
    as verified: a new record is appended, a record that was found is
    written back in its place. *)
Lemma store_form_ok e uid d st :
  find_ok e = true → save_ok e = true →
  store_form e uid d st
  = let found := list_find (λ a, Is_true (owned_by uid a)) (docs st) in
    let artisan :=
      match found with
      | None => create_artisan e uid d
      | Some (_, a) => update_artisan e d a
      end in
    (inr (Response 200
            (ack_json (get artisan "_id") (VStr (name d)) (VBool true))),
     Store (match found with
            | None => docs st ++ [artisan]
            | Some (i, _) => <[i := artisan]> (docs st)
            end)
       (calls st ++ [FindOne uid; Save artisan])).
Proof.
  intros Hfind Hsave. unfold store_form, findOne, save.
  rewrite Hfind, Hsave. cbn zeta.
  destruct (list_find _ _) as [[i a]|]; cbn [docs calls].
  - unfold acknowledge.
    rewrite (get_Some _ _ _ (update_verification e d a)).
    cbn [get_prop].
    rewrite (get_Some _ _ _ (verification_update_isVerified e d _)).
    rewrite (get_Some _ _ _ (update_name e d a)).
    rewrite <- app_assoc. done.
  - unfold acknowledge.
    rewrite (get_Some _ _ _ (create_verification e uid d)).
    cbn [get_prop].
    rewrite (get_Some _ "name" (VStr (name d)))
      by (unfold create_artisan, Artisan; by look).
    rewrite <- app_assoc. done.
Qed.

Section Answers.
Variable is_url : string → bool.
Variable issue_json : issue → jsval.

(** Every issue of a payload that is an object names a key of the
    payload. *)
Lemma object_issues_keyed o errs :
  safeParse (bankVerificationSchema is_url) (VObj o) = inl errs →
  Forall (λ i, ∃ k q, path i = Key k :: q) errs.
Proof.
  intros Herrs%issues_of_inl. rewrite <- Herrs.
  unfold safeParse, bankVerificationSchema, z_object.
  repeat apply all_issues_ap; [apply Forall_nil_2 | ..].
  all: apply Forall_forall; intros i Hi.
  all: apply rooted_field in Hi as [q Hq];
    [rewrite Hq; by eexists _, _ | eauto with schema].
Qed.

Lemma bank_account_invalid e req st errs :
  safeParse (bankVerificationSchema is_url) (body req) = inl errs →
  bank_account is_url issue_json e req st
  = (Response 400
       {[ "error" := VStr "Validation failed";
          "details" := VArr (issue_json <$> errs) ]},
     st).
Proof. intros H. unfold bank_account. by rewrite H. Qed.

Lemma bank_account_valid e req st d :
  safeParse (bankVerificationSchema is_url) (body req) = inr d →
  bank_account is_url issue_json e req st
  = match store_form e (user_id req) d st with
    | (inr res, st') => (res, st')
    | (inl _, st') =>
        (Response 500
           {[ "error" := VStr "Failed to validate and store form" ]},
         st')
    end.
Proof. intros H. unfold bank_account. by rewrite H. Qed.
End Answers.

(** *** The location and the socials of a valid payload *)

(** The location that is stored is made of the city and state of the
    request and of its country, or India; nothing else of the location of
    the request is kept. *)
Lemma location_of_request is_url v d :
  safeParse (bankVerificationSchema is_url) v = inr d →
  ∃ o lo,
    v = VObj o ∧ get o "location" = VObj lo
    ∧ location_val (location d)
      = VObj {[ "city" := get lo "city";
                "state" := get lo "state";
                "country" :=
                  if is_undefined (get lo "country") then VStr "India"
                  else get lo "country" ]}.
Proof.
  unfold safeParse, bankVerificationSchema.
  intros (o & -> & H)%object_inr. exists o.
  repeat (apply ap_inr in H as (? & ? & H & ? & ->)).
  injection H as <-. cbn [location].
  match goal with
  | Hl : field "location" _ _ _ = inr _ |- _ =>
      unfold field in Hl; apply object_inr in Hl as (lo & Hlo & Hl);
      exists lo; split; [done |]; split; [exact Hlo |];
      repeat (apply ap_inr in Hl as (? & ? & Hl & ? & ->));
      injection Hl as <-
  end.
  unfold field, z_default in *.
  repeat match goal with
    | Hs : z_string _ _ _ _ = inr _ |- _ => apply string_inr in Hs
    end.
  unfold location_val. cbn [city state country].
  repeat match goal with Hs : get lo _ = _ |- _ => rewrite Hs end.
  destruct (is_undefined (get lo "country")).
  - match goal with Hs : VStr _ = VStr _ |- _ => by injection Hs as <- end.
  - match goal with Hs : get lo "country" = _ |- _ => by rewrite Hs end.
Qed.

(** The socials that are stored hold, of the three keys of the shape,
    those that the socials of the request hold, and no other key. *)
Lemma socials_of_request is_url v d sd :
  safeParse (bankVerificationSchema is_url) v = inr d →
  socials d = Some sd →
  ∃ o so m,
    v = VObj o ∧ get o "socials" = VObj so ∧ socials_val sd = VObj m
    ∧ (∀ k, k ∈ social_keys →
         m !! k = if is_undefined (get so k) then None else Some (get so k))
    ∧ (∀ k, k ∉ social_keys → m !! k = None).
Proof.
  unfold safeParse, bankVerificationSchema.
  intros (o & -> & H)%object_inr Hsd. exists o.
  repeat (apply ap_inr in H as (? & ? & H & ? & ->)).
  injection H as <-. cbn [socials] in Hsd. subst.
  match goal with
  | Hl : field "socials" _ _ _ = inr (Some _) |- _ =>
      unfold field in Hl; apply optional_inr in Hl as [_ Hl];
      apply object_inr in Hl as (so & Hso & Hl); exists so;
      repeat (apply ap_inr in Hl as (? & ? & Hl & ? & ->));
      injection Hl as <-
  end.
  unfold field in *.
  repeat match goal with
    | Hs : z_optional _ _ _ = inr _ |- _ => apply optional_inr in Hs
    end.
  eexists. split; [done |]. split; [exact Hso |]. split; [done |].
  unfold social_keys. cbn [instagram facebook website]. split.
  - intros k Hk. rewrite !elem_of_cons in Hk.
    destruct Hk as [->|[->|[->|?%elem_of_nil]]]; [| | | done].
    all: repeat match goal with
           | Hs : match ?x with Some _ => _ | None => _ end |- _ =>
               destruct x; [destruct Hs as [? Hs%string_inr] |]
           end.
    all: repeat match goal with Hs : get _ _ = _ |- _ => rewrite Hs end.
    all: unfold set_opt; cbn [is_undefined]; by look.
  - intros k Hk. rewrite !not_elem_of_cons in Hk.
    destruct Hk as (? & ? & ? & _).
    repeat match goal with
      | |- context [set_opt _ ?x _] => is_var x; destruct x
      end; unfold set_opt;
      rewrite ?lookup_insert_ne by (intros E; by symmetry in E);
      apply lookup_empty.
Qed.

End HandlerFacts.

(* ===================================================================== *)
(** ** Properties of the verification endpoint *)
(* ===================================================================== *)

Module Endpoint.
Import Regex Zod Verify Reading Vocabulary ZodFacts SchemaFacts HandlerFacts.

(** C5. A payload that fails schema validation is answered with status
    400, the error "Validation failed" and the list of the validation
    issues, which is not empty and, for a payload that is an object,
    names a key of the payload in every issue; the store is left as it
    was, with no call made on it. *)
Theorem validation_failure (is_url : string → bool)
    (issue_json : issue → jsval) (e : env) (req : request) (st : store)
    (errs : list issue) :
  safeParse (bankVerificationSchema is_url) (body req) = inl errs →
  bank_account is_url issue_json e req st
  = (Response 400
       {[ "error" := VStr "Validation failed";
          "details" := VArr (issue_json <$> errs) ]},
     st)
  ∧ errs ≠ []
  ∧ (∀ o, body req = VObj o →
       Forall (λ i, ∃ k q, path i = Key k :: q) errs).
Proof.
  intros Herrs. split; [by apply bank_account_invalid |]. split.
  - eapply proper_inl; [apply proper_schema | apply Herrs].
  - intros o Ho. rewrite Ho in Herrs.
    by apply (object_issues_keyed is_url o).
Qed.

Lemma validation_failure_witness :
  bank_account (λ _, true) (λ _, VNull) sample_env (sample_request "12345")
    sample_store
  = (Response 400
       {[ "error" := VStr "Validation failed";
          "details" := VArr [VNull] ]},
     sample_store).
Proof.
  apply (validation_failure (λ _, true) (λ _, VNull) sample_env
           (sample_request "12345") sample_store
           [Issue invalid_string [Key "accountNumber"]
              (Some "Account number must be 9-18 digits")]).
  vm_compute. reflexivity.
Defined.



(** C1, as the specification words it, fails: the update spreads the
    old verification block under the five keys it writes, so a key of the
    old block that is not one of the five is still there after the
    update, and the new block is not the verified block of the payload.
    The old bank sub-object is gone. *)
Lemma update_keeps_old_key :
  ∃ artisan' block bank,
    docs (bank_account (λ _, true) (λ _, VNull) sample_env
            (sample_request "123456789") (Store [reviewed_record] [])).2
    = [artisan']
    ∧ artisan' !! "verification" = Some (VObj block)
    ∧ block !! "reviewer" = Some (VStr "bob")
    ∧ block ≠ verified_block sample_env sample_data
    ∧ block !! "bankDetails" = Some (VObj bank)
    ∧ bank !! "branch" = None.
Proof.
  exists (update_artisan sample_env sample_data reviewed_record),
    (verification_update sample_env sample_data
       (get reviewed_record "verification")),
    {[ "accountNumber" := VStr "123456789";
       "ifscCode" := VStr "ABCD0123456";
       "bankName" := VStr "Test Bank" ]}.
  split_and!.
  - vm_compute. reflexivity.
  - vm_compute. reflexivity.
  - vm_compute. reflexivity.
  - intros Heq.
    apply (f_equal (λ m : gmap string jsval, m !! "reviewer")) in Heq.
    vm_compute in Heq. discriminate Heq.
  - by vm_compute.
  - by vm_compute.
Qed.

(** C1, amended. A valid payload of a caller whose record exists: when
    both store calls succeed, the record is written back in its place
    with the name of the request; with the bio, specialties and
    experience of the request where the request carries the field, and
    the old value where it does not; with the city, the state and the
    country (or India) of the location of the request, which a valid
    payload always carries; with the socials of the request, reduced to
    the keys of the shape, where the request carries them. In the
    verification block isVerified is true, the document type and number
    and the time are those of the request, and the bank sub-object is
    made of the three bank fields of the request and of nothing else;
    every other key of an old block is kept, so that the block is the
    verified block of the payload when the old block has no key beyond
    the five. No other field of the record changes. *)
Theorem update_existing (is_url : string → bool)
    (issue_json : issue → jsval) (e : env) (req : request) (st : store)
    (o : gmap string jsval) (d : VerificationData) (i : nat)
    (artisan : gmap string jsval) :
  body req = VObj o →
  safeParse (bankVerificationSchema is_url) (body req) = inr d →
  find_ok e = true → save_ok e = true →
  list_find (λ a, Is_true (owned_by (user_id req) a)) (docs st)
    = Some (i, artisan) →
  ∃ artisan' block,
    bank_account is_url issue_json e req st
    = (Response 200
         (ack_json (get artisan "_id") (get o "name") (VBool true)),
       Store (<[i := artisan']> (docs st))
         (calls st ++ [FindOne (user_id req); Save artisan']))
    ∧ artisan' !! "name" = Some (get o "name")
    ∧ artisan' !! "bio"
      = (if present o "bio" then Some (get o "bio") else artisan !! "bio")
    ∧ artisan' !! "specialties"
      = (if present o "specialties" then Some (get o "specialties")
         else artisan !! "specialties")
    ∧ artisan' !! "experience"
      = (if present o "experience" then Some (get o "experience")
         else artisan !! "experience")
    ∧ (∃ lo,
         get o "location" = VObj lo
         ∧ artisan' !! "location"
           = Some (VObj {[ "city" := get lo "city";
                           "state" := get lo "state";
                           "country" :=
                             if is_undefined (get lo "country")
                             then VStr "India"
                             else get lo "country" ]}))
    ∧ (if present o "socials"
       then ∃ so m,
              get o "socials" = VObj so
              ∧ artisan' !! "socials" = Some (VObj m)
              ∧ (∀ k, k ∈ social_keys →
                   m !! k = if is_undefined (get so k) then None
                            else Some (get so k))
              ∧ (∀ k, k ∉ social_keys → m !! k = None)
       else artisan' !! "socials" = artisan !! "socials")
    ∧ (∀ k, k ∉ written_fields → artisan' !! k = artisan !! k)
    ∧ artisan' !! "verification" = Some (VObj block)
    ∧ block !! "isVerified" = Some (VBool true)
    ∧ block !! "documentType" = Some (get o "documentType")
    ∧ block !! "documentNumber" = Some (get o "documentNumber")
    ∧ block !! "bankDetails"
      = Some (VObj {[ "accountNumber" := get o "accountNumber";
                      "ifscCode" := get o "ifscCode";
                      "bankName" := get o "bankName" ]})
    ∧ block !! "verifiedAt" = Some (VDate (now e))
    ∧ (∀ old k, artisan !! "verification" = Some (VObj old) →
         k ∉ verification_fields → block !! k = old !! k)
    ∧ (dom (spread (get artisan "verification")) ⊆ verification_fields →
       block = verified_block e d).
Proof.
  intros Hbody Hvalid Hfind Hsave Hfound.
  destruct (valid_payload _ _ _ Hvalid)
    as (o' & Ho' & Hacc & Hifsc & Hbank & Hname & Hbio & Hspec & Hexp
        & Hsoc & Hloc & Hdt & Hdn).
  rewrite Hbody in Ho'. injection Ho' as <-.
  destruct (location_of_request _ _ _ Hvalid) as (o' & lo & Ho' & Hlo & Hlv).
  rewrite Hbody in Ho'. injection Ho' as <-.
  assert (∀ k, k ∉ written_fields →
            update_artisan e d artisan !! k = artisan !! k) as Hother.
  { intros k Hk. unfold written_fields in Hk.
    rewrite !not_elem_of_cons in Hk.
    destruct Hk as (? & ? & ? & ? & ? & ? & ? & _).
    unfold update_artisan, assign_if. cbn zeta.
    repeat case_match; rewrite ?lookup_insert_ne by congruence; done. }
  exists (update_artisan e d artisan),
    (verification_update e d (get artisan "verification")).
  rewrite (bank_account_valid _ _ _ _ _ _ Hvalid).
  rewrite store_form_ok by done. rewrite Hfound. cbn zeta.
  rewrite update_verification, update_name, Hname, Hacc, Hifsc, Hbank,
    Hdt, Hdn.
  split.
  { unfold get at 1. rewrite Hother; [done |].
    unfold written_fields. rewrite !not_elem_of_cons.
    repeat split; try done. apply not_elem_of_nil. }
  split; [done |].
  assert (update_artisan e d artisan !! "location"
          = Some (location_val (location d))) as Hl.
  { unfold update_artisan, assign_if. cbn zeta.
    cbn [truthy location_val]. look. repeat case_match; by look. }
  assert (update_artisan e d artisan !! "socials"
          = match socials d with
            | Some sd => Some (socials_val sd)
            | None => artisan !! "socials"
            end) as Hs.
  { unfold update_artisan, assign_if. cbn zeta. look.
    destruct (socials d); cbn [opt truthy socials_val]; [by look |].
    repeat case_match; by look. }
  split_and!.
  - unfold present. rewrite Hbio. unfold update_artisan, assign_if.
    cbn zeta. look. destruct (bio d); cbn [opt is_undefined negb];
      repeat case_match; by look.
  - unfold present. rewrite Hspec. unfold update_artisan, assign_if.
    cbn zeta. look.
    destruct (specialties d);
      cbn [opt is_undefined negb truthy specialties_val];
      repeat case_match; by look.
  - unfold present. rewrite Hexp. unfold update_artisan, assign_if.
    cbn zeta. look.
    destruct (experience d); cbn [opt is_undefined negb];
      repeat case_match; by look.
  - exists lo. split; [done |]. by rewrite Hl, Hlv.
  - rewrite Hsoc, Hs. destruct (socials d) as [sd|] eqn:Hsd;
      cbn [opt is_undefined negb socials_val]; [|done].
    destruct (socials_of_request _ _ _ sd Hvalid Hsd)
      as (o' & so & m & Ho' & Hso & Hm & Hin & Hout).
    rewrite Hbody in Ho'. injection Ho' as <-.
    exists so, m. by rewrite <- Hm.
  - exact Hother.
  - done.
  - apply verification_update_isVerified.
  - unfold verification_update. by look.
  - unfold verification_update. by look.
  - unfold verification_update, bankDetails_val. by look.
  - unfold verification_update. by look.
  - intros old k Hold Hk. rewrite verification_update_keeps by done.
    by rewrite (get_Some _ _ _ Hold).
  - apply verification_update_replaces.
Qed.

Lemma update_existing_witness :
  ∃ artisan' block,
    bank_account (λ _, true) (λ _, VNull) sample_env
      {| body := VObj detailed_payload; user_id := 7 |}
      (Store [reviewed_record] [])
    = (Response 200 (ack_json (VId 9) (VStr "Jane") (VBool true)),
       Store [artisan'] [FindOne 7; Save artisan'])
    ∧ artisan' !! "name" = Some (VStr "Jane")
    ∧ artisan' !! "location"
      = Some (VObj {[ "city" := VStr "Pune"; "state" := VStr "MH";
                      "country" := VStr "India" ]})
    ∧ artisan' !! "verification" = Some (VObj block)
    ∧ block !! "reviewer" = Some (VStr "bob")
    ∧ block !! "bankDetails"
      = Some (VObj {[ "accountNumber" := VStr "123456789";
                      "ifscCode" := VStr "ABCD0123456";
                      "bankName" := VStr "Test Bank" ]}).
Proof.
  destruct (update_existing (λ _, true) (λ _, VNull) sample_env
              {| body := VObj detailed_payload; user_id := 7 |}
              (Store [reviewed_record] [])
              detailed_payload detailed_data 0 reviewed_record)
    as (artisan' & block & Hres & Hname & _ & _ & _ & (lo & Hlo & Hloc) & _
        & _ & Hver & _ & _ & _ & Hbank & _ & Hkeep & _);
    [reflexivity | by vm_compute | reflexivity | reflexivity
    | by vm_compute |].
  exists artisan', block. split_and!; try assumption.
  - vm_compute in Hlo. injection Hlo as <-. exact Hloc.
  - rewrite (Hkeep {[ "isVerified" := VBool false;
                      "reviewer" := VStr "bob";
                      "bankDetails" := VObj {[ "branch" := VStr "Pune" ]} ]}
               "reviewer"); [reflexivity | reflexivity |].
    apply (bool_decide_unpack _). by vm_compute.
Defined.

(** C10. Whenever the endpoint answers 200, the record it has just
    saved is in the collection with verification.isVerified = true, and
    the answer reports isVerified = true for it. *)
Theorem acknowledged_verified (is_url : string → bool)
    (issue_json : issue → jsval) (e : env) (req : request) (st : store) :
  status (bank_account is_url issue_json e req st).1 = 200 →
  ∃ artisan block,
    last (calls (bank_account is_url issue_json e req st).2)
      = Some (Save artisan)
    ∧ artisan ∈ docs (bank_account is_url issue_json e req st).2
    ∧ artisan !! "verification" = Some (VObj block)
    ∧ block !! "isVerified" = Some (VBool true)
    ∧ json (bank_account is_url issue_json e req st).1
      = ack_json (get artisan "_id") (get artisan "name") (VBool true).
Proof.
  destruct (safeParse (bankVerificationSchema is_url) (body req))
    as [errs|d] eqn:Hparse.
  { by rewrite (bank_account_invalid _ _ _ _ _ _ Hparse). }
  rewrite (bank_account_valid _ _ _ _ _ _ Hparse).
  destruct (find_ok e) eqn:Hfind;
    [| unfold store_form, findOne; by rewrite Hfind].
  destruct (save_ok e) eqn:Hsave.
  2: { unfold store_form, findOne, save. rewrite Hfind, Hsave.
       by destruct (list_find _ _) as [[? ?]|]. }
  rewrite store_form_ok by done. cbn zeta.
  destruct (list_find _ _) as [[i a]|] eqn:Hfound; cbn [fst snd docs calls
    status json]; intros _.
  - exists (update_artisan e d a),
      (verification_update e d (get a "verification")).
    rewrite (get_Some _ _ _ (update_name e d a)).
    split_and!.
    + apply last_two.
    + apply list_find_Some in Hfound as (Hi & _).
      apply list_elem_of_lookup. exists i.
      apply list_lookup_insert_eq. by eapply lookup_lt_Some.
    + apply update_verification.
    + apply verification_update_isVerified.
    + done.
  - exists (create_artisan e (user_id req) d), (verified_block e d).
    rewrite (get_Some _ "name" (VStr (name d)))
      by (unfold create_artisan, Artisan; by look).
    split_and!.
    + apply last_two.
    + apply elem_of_app. right. by apply list_elem_of_singleton.
    + apply create_verification.
    + done.
    + done.
Qed.

Lemma acknowledged_verified_witness :
  ∃ artisan block,
    last (calls (bank_account (λ _, true) (λ _, VNull) sample_env
                   (sample_request "123456789") sample_store).2)
      = Some (Save artisan)
    ∧ artisan !! "verification" = Some (VObj block)
    ∧ block !! "isVerified" = Some (VBool true).
Proof.
  destruct (acknowledged_verified (λ _, true) (λ _, VNull) sample_env
              (sample_request "123456789") sample_store)
    as (artisan & block & Hlast & _ & Hver & Hflag & _);
    [by vm_compute |].
  exists artisan, block. repeat split; assumption.
Defined.

End Endpoint.

(* ===================================================================== *)
(** ** The client calls *)
(* ===================================================================== *)

Module ClientFacts.
Import Api Reading.

Lemma fulfilled_None {A} (ps : list (result A)) :
  fulfilled ps = None ↔ Exists rejected ps.
Proof.
  induction ps as [|[e|a] ps IH]; simpl.
  - split; [done | by intros ?%Exists_nil].
  - split; [intros _; left; by exists e | done].
  - rewrite fmap_None, IH, Exists_cons. split; [by right |].
    by intros [[? ?] | ?].
Qed.

Lemma then_rejected {A B} (p : result A) (f : A → result B) :
  rejected p → rejected (then_ p f).
Proof. intros [err ->]. by exists err. Qed.

Section Calls.
Variable API_BASE_URL : string.
Variable net : http_request → result Response.
Variable first_rejected : list js_error → js_error.
Variable to_string : jsval → string.

(** [Promise.all] rejects as soon as one of the promises does. *)
Lemma Promise_all_rejected {A} (ps : list (result A)) :
  Exists rejected ps → rejected (Promise_all first_rejected ps).
Proof.
  intros Hex%fulfilled_None. unfold Promise_all. rewrite Hex.
  by eexists.
Qed.

(** One upload: one request, sent when the call is made. *)
Lemma uploadFile_run file type sent :
  uploadFile API_BASE_URL net to_string file type sent
  = (upload_outcome API_BASE_URL net to_string (file, type),
     sent ++ [upload_request API_BASE_URL (file, type)]).
Proof. done. Qed.

Lemma upload_each_run photos sent :
  upload_each API_BASE_URL net to_string photos sent
  = (upload_outcome API_BASE_URL net to_string <$> photo_attachments photos,
     sent ++ (upload_request API_BASE_URL <$> photo_attachments photos)).
Proof.
  revert sent. induction photos as [|photo rest IH]; intros sent.
  - simpl. by rewrite app_nil_r.
  - cbn [upload_each]. rewrite uploadFile_run, IH.
    unfold photo_attachments. cbn [fmap list_fmap].
    by rewrite <- app_assoc.
Qed.

Lemma push_upload_step file type k :
  upload_step API_BASE_URL net to_string
    (push_upload API_BASE_URL net to_string file type k)
    (file_attachment file type).
Proof.
  intros ps sent. unfold push_upload.
  destruct file as [f|]; cbn [file_attachment].
  - rewrite uploadFile_run. eexists. split; [done |]. split; [done |].
    intros Hex%Exists_cons. destruct Hex as [Hf | ?%Exists_nil]; [|done].
    left. by apply then_rejected.
  - exists []. cbn [fmap list_fmap]. rewrite !app_nil_r.
    split_and!; [done | done | by intros ?%Exists_nil].
Qed.

Lemma push_photos_step photos :
  upload_step API_BASE_URL net to_string
    (push_photos API_BASE_URL net first_rejected to_string photos)
    (photo_attachments photos).
Proof.
  intros ps sent. unfold push_photos. destruct photos as [|photo rest].
  - exists [].
    cbn [photo_attachments fmap list_fmap length Nat.ltb Nat.leb].
    rewrite !app_nil_r.
    split_and!; [done | done | by intros ?%Exists_nil].
  - cbn [length Nat.ltb Nat.leb]. rewrite upload_each_run.
    eexists. split; [done |]. split; [done |].
    intros Hex. left. apply then_rejected, Promise_all_rejected.
    by apply Exists_fmap.
Qed.

(** The uploads of a submission: one request for each attachment, in
    order; no promise when there is no attachment; a promise that
    rejects when an upload fails. *)
Lemma start_uploads_run data sent :
  ∃ promises,
    start_uploads API_BASE_URL net first_rejected to_string data sent
    = (promises, sent ++ (upload_request API_BASE_URL <$> attachments data))
    ∧ (attachments data = [] → promises = [])
    ∧ (Exists (λ a, rejected (upload_outcome API_BASE_URL net to_string a))
         (attachments data) →
       Exists rejected promises).
Proof.
  unfold start_uploads, attachments.
  destruct (push_upload_step (profilePhoto data) image
              "profilePhotoUrl" [] sent) as (n1 & -> & E1 & R1).
  destruct (push_upload_step (gstCertificate data) document
              "gstCertificateUrl" ([] ++ n1)
              (sent ++ (upload_request API_BASE_URL
                          <$> file_attachment (profilePhoto data) image)))
    as (n2 & -> & E2 & R2).
  destruct (push_upload_step (aadhaarProof data) document
              "aadhaarProofUrl" (([] ++ n1) ++ n2)
              ((sent ++ (upload_request API_BASE_URL
                           <$> file_attachment (profilePhoto data) image))
               ++ (upload_request API_BASE_URL
                     <$> file_attachment (gstCertificate data) document)))
    as (n3 & -> & E3 & R3).
  match goal with
  | |- context [push_photos _ _ _ _ _ ?ps ?t] =>
      destruct (push_photos_step (productPhotos data) ps t)
        as (n4 & -> & E4 & R4)
  end.
  match goal with
  | |- context [push_upload _ _ _ _ _ _ ?ps ?t] =>
      destruct (push_upload_step (craftVideo data) video
                  "craftVideoUrl" ps t) as (n5 & -> & E5 & R5)
  end.
  eexists. split; [|split].
  - by rewrite !fmap_app, <- !app_assoc.
  - intros (H1 & (H2 & (H3 & (H4 & H5)%app_eq_nil)%app_eq_nil
                 )%app_eq_nil)%app_eq_nil.
    by rewrite E1, E2, E3, E4, E5.
  - rewrite !Exists_app. intros [?|[?|[?|[?|?]]]]; auto 10.
Qed.
End Calls.

End ClientFacts.

(* ===================================================================== *)
(** ** Properties of the client calls *)
(* ===================================================================== *)

Module Client.
Import Zod Api Reading Vocabulary HandlerFacts ClientFacts.

(** C9, as the specification words it, fails. The verification endpoint
    answers a payload that fails validation with its text under [error]:
    the body is there and is JSON, the server has provided a message, and
    the client throws the fallback. To a body that is JSON [null] the
    client throws a [TypeError], which has neither message. *)
Lemma error_text_not_used :
  Verify.json
    (Verify.bank_account (λ _, true) (λ _, VNull) sample_env
       (sample_request "12345") sample_store).1 !! "error"
  = Some (VStr "Validation failed")
  ∧ ok (delivered
          (Verify.bank_account (λ _, true) (λ _, VNull) sample_env
             (sample_request "12345") sample_store).1) = false
  ∧ handleResponse (λ _, "")
      (delivered
         (Verify.bank_account (λ _, true) (λ _, VNull) sample_env
            (sample_request "12345") sample_store).1)
    = inl (Error "Something went wrong")
  ∧ handleResponse (λ _, "") {| ok := false; body_json := Some VNull |}
    = inl TypeError.
Proof. split_and!; by vm_compute. Qed.

(** C9, amended. A response that is not a success and whose body is not
    JSON [null] makes [handleResponse] throw one [Error]. Its message is
    what the body holds under [message]: that string when it is a string
    that is not empty, its conversion to a string when it is another
    value that counts as true. It is "Something went wrong" in every
    other case: when the body is absent or is not JSON, when the body is
    not an object, and when the body is an object that holds nothing
    under [message], or a value that counts as false; a text under
    another key is not used. *)
Theorem error_response (to_string : jsval → string) (response : Response) :
  ok response = false →
  body_json response ≠ Some VNull →
  body_json response ≠ Some VUndef →
  ∃ msg,
    handleResponse to_string response = inl (Error msg)
    ∧ (∀ o m, body_json response = Some (VObj o) →
         o !! "message" = Some (VStr m) → m ≠ "" → msg = m)
    ∧ (∀ o v, body_json response = Some (VObj o) →
         o !! "message" = Some v → is_string v = false → truthy v = true →
         msg = to_string v)
    ∧ (body_json response = None → msg = "Something went wrong")
    ∧ (∀ v, body_json response = Some v → (∀ o, v ≠ VObj o) →
         msg = "Something went wrong")
    ∧ (∀ o, body_json response = Some (VObj o) →
         truthy (get o "message") = false → msg = "Something went wrong").
Proof.
  intros Hok Hnull Hundef. unfold handleResponse. rewrite Hok. cbn [negb].
  destruct (body_json response) as [v|]; cbn [default from_option id].
  2: { eexists. split_and!; done. }
  destruct v as [| | b | q | s | l | o | f | t | n]; try done;
    cbn [get_prop js_or truthy new_Error].
  all: try (eexists; split_and!; [done | done | done | done | | done];
            by intros v' [= <-] Hv).
  unfold js_or. destruct (truthy (get o "message")) eqn:Htruthy.
  - eexists. split_and!; [done | | | done | | ].
    + intros o' m [= <-] Hm Hne. unfold get. by rewrite Hm.
    + intros o' v [= <-] Hv Hstr _. unfold get. rewrite Hv.
      cbn [default from_option id]. by destruct v.
    + intros v [= <-] Hv. by destruct (Hv o).
    + intros o' [= <-] Hfalse. congruence.
  - eexists. split_and!; [done | | | done | | done].
    + intros o' m [= <-] Hm Hne. unfold get in Htruthy. rewrite Hm in Htruthy.
      simpl in Htruthy. by destruct (String.eqb_spec m "").
    + intros o' v [= <-] Hv _ Hyes. unfold get in Htruthy.
      rewrite Hv in Htruthy. cbn [default from_option id] in Htruthy.
      congruence.
    + intros v [= <-] Hv. by destruct (Hv o).
Qed.

Lemma error_response_witness :
  handleResponse (λ _, "")
    {| ok := false;
       body_json := Some (VObj {[ "message" := VStr "File too large" ]}) |}
  = inl (Error "File too large")
  ∧ handleResponse (λ _, "")
      {| ok := false;
         body_json :=
           Some (VObj {[ "error" := VStr "Validation failed" ]}) |}
    = inl (Error "Something went wrong").
Proof.
  split.
  - destruct (error_response (λ _, "")
                {| ok := false;
                   body_json :=
                     Some (VObj {[ "message" := VStr "File too large" ]}) |})
      as (msg & -> & Hmsg & _); [reflexivity | discriminate .. |].
    f_equal. f_equal.
    apply (Hmsg {[ "message" := VStr "File too large" ]} "File too large");
      [reflexivity | reflexivity | discriminate].
  - destruct (error_response (λ _, "")
                {| ok := false;
                   body_json :=
                     Some (VObj {[ "error" := VStr "Validation failed" ]}) |})
      as (msg & -> & _ & _ & _ & _ & Hnone); [reflexivity | discriminate .. |].
    f_equal. f_equal.
    apply (Hnone {[ "error" := VStr "Validation failed" ]});
      reflexivity.
Defined.



(** C8. For a submission with no attachment, [registerSeller] makes no
    upload call: the one request it sends is the registration, and the
    wire payload of that request has none of the raw file fields and
    none of the fields for the locations of uploaded files. *)
Theorem no_attachments (API_BASE_URL : string)
    (net : http_request → result Response)
    (first_rejected : list js_error → js_error)
    (to_string : jsval → string) (data : SellerFormData)
    (sent : list http_request) :
  profilePhoto data = None → gstCertificate data = None →
  aadhaarProof data = None → craftVideo data = None →
  productPhotos data = [] →
  ∃ payload,
    registerSeller API_BASE_URL net first_rejected to_string data sent
    = (then_ (net (register_request API_BASE_URL payload))
         (handleResponse to_string),
       sent ++ [register_request API_BASE_URL payload])
    ∧ is_upload (register_request API_BASE_URL payload) = false
    ∧ Forall (λ k, payload !! k = None) file_fields.
Proof.
  intros H1 H2 H3 H4 H5.
  assert (attachments data = []) as Hnone.
  { unfold attachments. by rewrite H1, H2, H3, H4, H5. }
  unfold registerSeller.
  destruct (start_uploads_run API_BASE_URL net first_rejected to_string
              data sent) as (promises & -> & Hempty & _).
  rewrite (Hempty Hnone), Hnone. cbn [fmap list_fmap]. rewrite app_nil_r.
  exists (JSON_stringify (finalData data ∅)).
  split_and!; [done | done |].
  unfold file_fields. repeat apply Forall_cons_2; [.. | apply Forall_nil_2].
  all: unfold JSON_stringify, finalData; rewrite lookup_omap; look.
  all: try done.
  all: rewrite lookup_union_r by apply lookup_empty.
  all: unfold data_props; rewrite not_elem_of_list_to_map_1; [done |].
  all: cbn [fmap list_fmap fst]; rewrite !not_elem_of_cons.
  all: split_and!; (done || apply not_elem_of_nil).
Qed.

Lemma no_attachments_witness :
  ∃ payload,
    (registerSeller "/api" sample_net first_of (λ _, "") sample_form []).2
    = [register_request "/api" payload]
    ∧ Forall (λ k, payload !! k = None) file_fields.
Proof.
  destruct (no_attachments "/api" sample_net first_of (λ _, "")
              sample_form [])
    as (payload & Hrun & _ & Hnone); [reflexivity .. |].
  exists payload. split; [by rewrite Hrun | assumption].
Defined.

End Client.

(* ===================================================================== *)
(** ** The client call against the endpoint *)
(* ===================================================================== *)

Module Contract.
Import Zod Verify Reading ZodFacts SchemaFacts HandlerFacts.

(** Two strings go over the wire as they are. *)
Lemma bank_account_body_wire ifsc accountNumber :
  JSON_stringify (Api.bank_account_body ifsc accountNumber)
  = Api.bank_account_body ifsc accountNumber.
Proof.
  unfold JSON_stringify, Api.bank_account_body.
  rewrite (omap_insert_Some _ _ _ _ (VStr ifsc)) by done.
  rewrite (omap_insert_Some _ _ _ _ (VStr accountNumber)) by done.
  by rewrite omap_empty.
Qed.

(** C6. The body that [verifyBankAccount] sends holds [ifsc] and
    [accountNumber] and nothing else. The schema of the endpoint rejects
    it, whatever the two strings are: [ifscCode], [bankName], [name],
    [location], [documentType] and [documentNumber] are each reported
    as missing. The endpoint answers 400 and leaves the store as it
    was, and when that answer reaches the client the call throws the
    fallback error. *)
Theorem verifyBankAccount_rejected (API_BASE_URL : string)
    (net : Api.http_request → result Api.Response)
    (to_string : jsval → string) (is_url : string → bool)
    (issue_json : issue → jsval) (e : env) (uid : N) (st : store)
    (ifsc accountNumber : string) (sent : list Api.http_request) :
  let payload := JSON_stringify (Api.bank_account_body ifsc accountNumber) in
  let answer :=
    bank_account is_url issue_json e
      {| body := VObj payload; user_id := uid |} st in
  dom payload = {[ "ifsc"; "accountNumber" ]}
  ∧ (∃ errs,
       safeParse (bankVerificationSchema is_url) (VObj payload) = inl errs)
  ∧ Forall
      (λ k, field_errors k
              (safeParse (bankVerificationSchema is_url) (VObj payload))
            = [Issue invalid_type [Key k] None])
      ["ifscCode"; "bankName"; "name"; "location"; "documentType";
       "documentNumber"]
  ∧ status answer.1 = 400
  ∧ answer.2 = st
  ∧ (net (bank_account_request API_BASE_URL ifsc accountNumber)
     = inr (delivered answer.1) →
     Api.verifyBankAccount API_BASE_URL net to_string ifsc accountNumber
       sent
     = (inl (Error "Something went wrong"),
        sent ++ [bank_account_request API_BASE_URL ifsc accountNumber])).
Proof.
  intros payload answer. subst payload answer.
  rewrite bank_account_body_wire.
  assert (Forall
      (λ k, field_errors k
              (safeParse (bankVerificationSchema is_url)
                 (VObj (Api.bank_account_body ifsc accountNumber)))
            = [Issue invalid_type [Key k] None])
      ["ifscCode"; "bankName"; "name"; "location"; "documentType";
       "documentNumber"]) as Herrors.
  { repeat apply Forall_cons_2; [.. | apply Forall_nil_2].
    all: errors_of_key; unfold field, get, Api.bank_account_body.
    all: by look. }
  assert (∃ errs,
            safeParse (bankVerificationSchema is_url)
              (VObj (Api.bank_account_body ifsc accountNumber)) = inl errs)
    as [errs Herrs].
  { apply (field_errors_rejected "name").
    apply Forall_cons in Herrors as [_ Herrors].
    apply Forall_cons in Herrors as [_ Herrors].
    apply Forall_cons in Herrors as [Hname _]. by rewrite Hname. }
  rewrite (bank_account_invalid is_url issue_json e
             {| body := VObj (Api.bank_account_body ifsc accountNumber);
                user_id := uid |} st errs Herrs).
  split_and!; [| by exists errs | done | done | done |].
  - unfold Api.bank_account_body.
    rewrite !dom_insert_L, dom_empty_L. set_solver.
  - cbn [fst]. intros Hnet.
    unfold Api.verifyBankAccount, Api.fetch.
    rewrite bank_account_body_wire in *.
    unfold bank_account_request in Hnet.
    rewrite bank_account_body_wire in Hnet. rewrite Hnet.
    unfold Api.then_, Api.handleResponse, delivered.
    cbn [Api.ok Api.body_json status json Nat.leb andb negb default
         from_option id get_prop].
    unfold get, JSON_stringify. rewrite lookup_omap. look.
    unfold bank_account_request. by rewrite bank_account_body_wire.
Qed.

End Contract.

(* ===================================================================== *)
(** ** More on the schema: what it accepts, what it reports *)
(* ===================================================================== *)

Module SchemaMore.
Import Regex Zod Verify Reading Vocabulary RegexFacts ZodFacts SchemaFacts
  HandlerFacts.

Lemma is_ok_ap {A B} (f : parsed (A → B)) (x : parsed A) :
  is_ok (ap f x) = is_ok f && is_ok x.
Proof. by destruct f, x. Qed.

Lemma is_ok_true {A} (r : parsed A) : is_ok r = true ↔ ∃ a, r = inr a.
Proof.
  destruct r as [e|a]; simpl; split;
    [done | by intros [? ?] | by eexists | done].
Qed.

Lemma check_passes_spec is_url p s c :
  check_string is_url p s c = [] ↔ check_passes is_url s c = true.
Proof.
  destruct c; simpl.
  - by destruct (test r s).
  - rewrite Nat.leb_le. destruct (Nat.ltb_spec (js_length s) n);
      split; (done || lia).
  - rewrite Nat.leb_le. destruct (Nat.ltb_spec n (js_length s));
      split; (done || lia).
  - by destruct (is_url s).
Qed.

Lemma checks_pass_spec is_url p s checks :
  flat_map (check_string is_url p s) checks = []
  ↔ forallb (check_passes is_url s) checks = true.
Proof.
  induction checks as [|c checks IH]; simpl; [done |].
  rewrite andb_true_iff, <- IH, <- check_passes_spec.
  split; [by intros [? ?]%app_eq_nil | by intros [-> ->]].
Qed.

Lemma is_ok_string is_url checks p v :
  is_ok (z_string is_url checks p v)
  = match v with
    | VStr s => forallb (check_passes is_url s) checks
    | _ => false
    end.
Proof.
  unfold z_string. destruct v; try done.
  apply eq_true_iff_eq. rewrite <- (checks_pass_spec is_url p).
  by destruct (flat_map _ _).
Qed.

Lemma is_ok_optional {A} (inner : schema A) p v :
  is_ok (z_optional inner p v) = is_undefined v || is_ok (inner p v).
Proof.
  unfold z_optional. destruct (is_undefined v); [done |].
  by destruct (inner p v).
Qed.

Lemma is_ok_strings is_url p i l :
  is_ok (array_items (z_string is_url []) p i l) = forallb is_string l.
Proof.
  revert i. induction l as [|v l IH]; intros i; cbn [array_items]; [done |].
  rewrite !is_ok_ap, IH, is_ok_string. by destruct v.
Qed.

Lemma is_ok_pattern is_url r msg p v :
  is_ok (z_string is_url [regex r msg] p v)
  = match v with VStr s => test r s | _ => false end.
Proof. rewrite is_ok_string. destruct v; simpl; by rewrite ?andb_true_r. Qed.

Lemma is_ok_between is_url lo hi p v :
  is_ok (z_string is_url [min lo; max hi] p v) = string_between lo hi v.
Proof. rewrite is_ok_string. destruct v; simpl; by rewrite ?andb_true_r. Qed.

Lemma is_ok_at_least is_url lo p v :
  is_ok (z_string is_url [min lo] p v)
  = match v with VStr s => Nat.leb lo (js_length s) | _ => false end.
Proof. rewrite is_ok_string. destruct v; simpl; by rewrite ?andb_true_r. Qed.

Lemma is_ok_at_most is_url hi p v :
  is_ok (z_string is_url [max hi] p v) = string_between 0 hi v.
Proof. rewrite is_ok_string. destruct v; simpl; by rewrite ?andb_true_r. Qed.

Lemma is_ok_any_string is_url p v :
  is_ok (z_string is_url [] p v) = is_string v.
Proof. rewrite is_ok_string. by destruct v. Qed.

Lemma is_ok_website is_url p v :
  is_ok (z_string is_url [url] p v)
  = match v with VStr s => is_url s | _ => false end.
Proof. rewrite is_ok_string. destruct v; simpl; by rewrite ?andb_true_r. Qed.

Lemma is_ok_number lo p v :
  is_ok (z_number_min lo p v)
  = match v with VNum q => Qle_bool lo q | _ => false end.
Proof. unfold z_number_min. destruct v; try done. by destruct (Qle_bool _ _). Qed.

Lemma is_ok_enum values p v :
  is_ok (z_enum values p v)
  = match v with VStr s => existsb (String.eqb s) values | _ => false end.
Proof. unfold z_enum. destruct v; try done. by destruct (existsb _ _). Qed.

Lemma is_ok_array is_url p v :
  is_ok (z_array (z_string is_url []) p v)
  = match v with VArr l => forallb is_string l | _ => false end.
Proof. unfold z_array. destruct v; try done. apply is_ok_strings. Qed.

Lemma is_ok_location is_url p v :
  is_ok (location_schema is_url p v) = location_ok v.
Proof.
  unfold location_schema, z_object, location_ok. destruct v; try done.
  rewrite !is_ok_ap. cbn [is_ok pure andb]. unfold field, z_default.
  rewrite !is_ok_between, is_ok_any_string. unfold absent_or.
  by destruct (get o "country").
Qed.

Lemma is_ok_socials is_url p v :
  is_ok (socials_schema is_url p v) = socials_ok is_url v.
Proof.
  unfold socials_schema, z_object, socials_ok. destruct v; try done.
  rewrite !is_ok_ap. cbn [is_ok pure andb]. unfold field.
  by rewrite !is_ok_optional, !is_ok_any_string, is_ok_website.
Qed.

Lemma is_ok_schema is_url v :
  is_ok (safeParse (bankVerificationSchema is_url) v) = acceptable is_url v.
Proof.
  unfold safeParse, bankVerificationSchema, z_object, acceptable.
  destruct v as [| | | | | |o| | |]; try done.
  rewrite !is_ok_ap. cbn [is_ok pure andb]. unfold field.
  rewrite !is_ok_optional, !is_ok_pattern, !is_ok_between, is_ok_at_most,
    is_ok_at_least, is_ok_location, is_ok_array, is_ok_number, is_ok_enum,
    is_ok_socials.
  unfold absent_or.
  destruct (get o "accountNumber"), (get o "ifscCode");
    by rewrite ?accountNumber_re_spec, ?ifscCode_re_spec.
Qed.

(** X1. The schema accepts a payload exactly when the payload is an
    object that meets every rule: the two bank patterns, the bounds on
    the lengths, the optional fields absent or well-formed, the location
    with its city and state, the document type among the three. *)
Theorem accepted_iff_acceptable (is_url : string → bool) (v : jsval) :
  (∃ d, safeParse (bankVerificationSchema is_url) v = inr d)
  ↔ acceptable is_url v = true.
Proof. by rewrite <- is_ok_true, is_ok_schema. Qed.

(** X2. A required key that the payload lacks is reported once, as a
    missing value at that key; an optional key that the payload lacks is
    not reported at all. *)
Theorem missing_keys (is_url : string → bool) (o : gmap string jsval)
    (k : string) :
  o !! k = None →
  (k ∈ required_keys →
   field_errors k (safeParse (bankVerificationSchema is_url) (VObj o))
   = [Issue invalid_type [Key k] None])
  ∧ (k ∈ optional_keys →
     field_errors k (safeParse (bankVerificationSchema is_url) (VObj o))
     = []).
Proof.
  intros Hk. unfold required_keys, optional_keys.
  split; intros Hin; repeat (apply elem_of_cons in Hin as [->|Hin]);
    try (by apply elem_of_nil in Hin).
  all: errors_of_key; unfold field, get; by rewrite Hk.
Qed.

Lemma missing_keys_witness :
  field_errors "name"
    (safeParse (bankVerificationSchema (λ _, true))
       (VObj {[ "bio" := VStr "Weaver" ]}))
  = [Issue invalid_type [Key "name"] None]
  ∧ field_errors "socials"
      (safeParse (bankVerificationSchema (λ _, true))
         (VObj {[ "bio" := VStr "Weaver" ]}))
    = [].
Proof.
  split.
  - apply (missing_keys (λ _, true) {[ "bio" := VStr "Weaver" ]} "name");
      [reflexivity |].
    unfold required_keys. do 3 apply list_elem_of_further.
    apply list_elem_of_here.
  - apply (missing_keys (λ _, true) {[ "bio" := VStr "Weaver" ]} "socials");
      [reflexivity |].
    unfold optional_keys. do 3 apply list_elem_of_further.
    apply list_elem_of_here.
Defined.

Lemma strings_issues is_url p i l :
  issues_of (array_items (z_string is_url []) p i l)
  = (λ j, Issue invalid_type (p ++ [Idx j]) None)
    <$> non_string_indices i l.
Proof.
  revert i. induction l as [|v l IH]; intros i;
    cbn [array_items non_string_indices]; [done |].
  rewrite !issues_of_ap, IH, fmap_app. cbn [issues_of pure app].
  f_equal. by destruct v.
Qed.

(** X3. A specialties list is checked element by element: the errors on
    [specialties] are one type error for each element that is not a
    string, at the index of that element, in order. *)
Theorem specialties_errors (is_url : string → bool)
    (o : gmap string jsval) (l : list jsval) :
  o !! "specialties" = Some (VArr l) →
  field_errors "specialties"
    (safeParse (bankVerificationSchema is_url) (VObj o))
  = (λ j, Issue invalid_type [Key "specialties"; Idx j] None)
    <$> non_string_indices 0 l.
Proof.
  intros Hl. errors_of_key. unfold field, get. rewrite Hl.
  cbn [from_option id]. unfold z_optional. cbn [is_undefined z_array].
  transitivity
    (issues_of
       (array_items (z_string is_url []) ([] ++ [Key "specialties"]) 0 l)).
  - by destruct (array_items _ _ _ _).
  - by rewrite strings_issues.
Qed.

Lemma specialties_errors_witness :
  field_errors "specialties"
    (safeParse (bankVerificationSchema (λ _, true))
       (VObj {[ "specialties" :=
                  VArr [VStr "weaving"; VNull; VStr "dyeing"; VBool true] ]}))
  = [Issue invalid_type [Key "specialties"; Idx 1] None;
     Issue invalid_type [Key "specialties"; Idx 3] None].
Proof.
  apply (specialties_errors (λ _, true)
           {[ "specialties" :=
                VArr [VStr "weaving"; VNull; VStr "dyeing"; VBool true] ]}
           [VStr "weaving"; VNull; VStr "dyeing"; VBool true]).
  reflexivity.
Defined.

(** The errors of a string between two lengths. *)
Lemma between_issues is_url lo hi p s :
  issues_of (z_string is_url [min lo; max hi] p (VStr s))
  = (if Nat.ltb (js_length s) lo then [Issue too_small p None] else [])
    ++ (if Nat.ltb hi (js_length s) then [Issue too_big p None] else []).
Proof.
  unfold z_string. cbn [flat_map check_string]. rewrite app_nil_r.
  by destruct (_ ++ _).
Qed.

(** X4. The length rules. A bank name is reported as too small when it
    is empty and as too big beyond 100 characters; a name likewise with
    200; a bio is only reported beyond 1000 characters; a document number
    only when it is empty. Within these bounds no error is raised on the
    field. *)
Theorem length_rules (is_url : string → bool) (o : gmap string jsval)
    (s : string) :
  let r := safeParse (bankVerificationSchema is_url) (VObj o) in
  let n := js_length s in
  (o !! "bankName" = Some (VStr s) →
   field_errors "bankName" r
   = (if Nat.ltb n 1 then [Issue too_small [Key "bankName"] None] else [])
     ++ (if Nat.ltb 100 n then [Issue too_big [Key "bankName"] None] else []))
  ∧ (o !! "name" = Some (VStr s) →
     field_errors "name" r
     = (if Nat.ltb n 1 then [Issue too_small [Key "name"] None] else [])
       ++ (if Nat.ltb 200 n then [Issue too_big [Key "name"] None] else []))
  ∧ (o !! "bio" = Some (VStr s) →
     field_errors "bio" r
     = if Nat.ltb 1000 n then [Issue too_big [Key "bio"] None] else [])
  ∧ (o !! "documentNumber" = Some (VStr s) →
     field_errors "documentNumber" r
     = if Nat.ltb n 1 then [Issue too_small [Key "documentNumber"] None]
       else []).
Proof.
  intros r n. subst r n. split_and!; intros Hs; errors_of_key;
    unfold field, get; rewrite Hs; cbn [from_option id].
  - by rewrite between_issues.
  - by rewrite between_issues.
  - unfold z_optional, z_string. cbn [is_undefined flat_map check_string].
    rewrite app_nil_r. by destruct (Nat.ltb 1000 _).
  - unfold z_string. cbn [flat_map check_string].
    rewrite app_nil_r. by destruct (Nat.ltb _ 1).
Qed.

(** X5. The document type is one of aadhar, pan and license: any other
    string is reported as an invalid enum value at [documentType], and
    these three raise no error there. *)
Theorem documentType_rule (is_url : string → bool)
    (o : gmap string jsval) (s : string) :
  o !! "documentType" = Some (VStr s) →
  field_errors "documentType"
    (safeParse (bankVerificationSchema is_url) (VObj o))
  = if bool_decide (s = "aadhar" ∨ s = "pan" ∨ s = "license") then []
    else [Issue invalid_enum_value [Key "documentType"] None].
Proof.
  intros Hs. errors_of_key. unfold field, get. rewrite Hs.
  cbn [from_option id z_enum existsb].
  destruct (String.eqb_spec s "aadhar") as [->|?]; [done |].
  destruct (String.eqb_spec s "pan") as [->|?]; [done |].
  destruct (String.eqb_spec s "license") as [->|?]; [done |].
  rewrite bool_decide_eq_false_2; [done |]. by intros [?|[?|?]].
Qed.

Lemma documentType_rule_witness :
  field_errors "documentType"
    (safeParse (bankVerificationSchema (λ _, true))
       (VObj {[ "documentType" := VStr "passport" ]}))
  = [Issue invalid_enum_value [Key "documentType"] None].
Proof.
  apply (documentType_rule (λ _, true)
           {[ "documentType" := VStr "passport" ]} "passport").
  reflexivity.
Defined.

(** X6. The experience is a number that is not negative: a negative
    number is reported as too small at [experience], any other number
    raises no error there. *)
Theorem experience_rule (is_url : string → bool)
    (o : gmap string jsval) (q : Q) :
  o !! "experience" = Some (VNum q) →
  field_errors "experience"
    (safeParse (bankVerificationSchema is_url) (VObj o))
  = if Qle_bool 0 q then []
    else [Issue too_small [Key "experience"] None].
Proof.
  intros Hq. errors_of_key. unfold field, get. rewrite Hq.
  cbn [from_option id]. unfold z_optional, z_number_min.
  cbn [is_undefined]. by destruct (Qle_bool 0 q).
Qed.

Lemma experience_rule_witness :
  field_errors "experience"
    (safeParse (bankVerificationSchema (λ _, true))
       (VObj {[ "experience" := VNum (-3 # 2) ]}))
  = [Issue too_small [Key "experience"] None].
Proof.
  apply (experience_rule (λ _, true)
           {[ "experience" := VNum (-3 # 2) ]} (-3 # 2)).
  reflexivity.
Defined.

End SchemaMore.

(* ===================================================================== *)
(** ** More on the handler: failures, ownership, resubmission *)
(* ===================================================================== *)

Module HandlerMore.
Import Zod Verify Reading Vocabulary ZodFacts SchemaFacts HandlerFacts.

Lemma owned_by_owner uid doc : owned_by uid doc = true ↔ owner doc = Some uid.
Proof.
  unfold owned_by, owner. destruct (doc !! "userId") as [[]|]; try done.
  rewrite N.eqb_eq. split; [by intros -> | by intros [= ->]].
Qed.

Lemma owner_create e uid d : owner (create_artisan e uid d) = Some uid.
Proof. unfold owner, create_artisan, Artisan. by look. Qed.

Lemma update_keeps e d artisan k :
  k ∉ written_fields → update_artisan e d artisan !! k = artisan !! k.
Proof.
  intros Hk. unfold written_fields in Hk. rewrite !not_elem_of_cons in Hk.
  destruct Hk as (? & ? & ? & ? & ? & ? & ? & _).
  unfold update_artisan, assign_if. cbn zeta.
  repeat case_match; rewrite ?lookup_insert_ne by congruence; done.
Qed.

Lemma owner_update e d artisan :
  owner (update_artisan e d artisan) = owner artisan.
Proof.
  unfold owner. rewrite update_keeps; [done |].
  unfold written_fields. rewrite !not_elem_of_cons.
  split_and!; (done || apply not_elem_of_nil).
Qed.

Lemma owners_insert docs i a a' :
  docs !! i = Some a → owner a' = owner a →
  owners (<[i := a']> docs) = owners docs.
Proof.
  unfold owners. revert i.
  induction docs as [|x docs IH]; intros [|i]; simpl; try done.
  - intros [= ->] ->. done.
  - intros Hi Ho. specialize (IH i Hi Ho).
    destruct (owner x); [f_equal |]; exact IH.
Qed.

Lemma not_found_not_owner uid (docs : list (gmap string jsval)) :
  list_find (λ a, Is_true (owned_by uid a)) docs = None → uid ∉ owners docs.
Proof.
  intros Hnone%list_find_None. unfold owners.
  intros (doc & Hin & Ho)%list_elem_of_omap.
  rewrite Forall_forall in Hnone. apply (Hnone doc Hin).
  apply Is_true_true, owned_by_owner. done.
Qed.

Section Cases.
Variable is_url : string → bool.
Variable issue_json : issue → jsval.

(** The three ways in which the handler ends. *)
Lemma bank_account_cases e req st :
  let res := (bank_account is_url issue_json e req st).1 in
  let st' := (bank_account is_url issue_json e req st).2 in
  let uid := user_id req in
  (status res = 400 ∧ st' = st)
  ∨ (res = store_failure ∧ docs st' = docs st
     ∧ ((find_ok e = false ∧ calls st' = calls st ++ [FindOne uid])
        ∨ (save_ok e = false
           ∧ ∃ a, calls st' = calls st ++ [FindOne uid; Save a])))
  ∨ (status res = 200 ∧ find_ok e = true ∧ save_ok e = true
     ∧ ∃ d a,
         safeParse (bankVerificationSchema is_url) (body req) = inr d
         ∧ calls st' = calls st ++ [FindOne uid; Save a]
         ∧ match list_find (λ a, Is_true (owned_by uid a)) (docs st) with
           | None =>
               a = create_artisan e uid d ∧ docs st' = docs st ++ [a]
           | Some (i, old) =>
               a = update_artisan e d old
               ∧ docs st' = <[i := a]> (docs st)
           end).
Proof.
  cbn zeta.
  destruct (safeParse (bankVerificationSchema is_url) (body req))
    as [errs|d] eqn:Hparse.
  { left. by rewrite (bank_account_invalid _ _ _ _ _ _ Hparse). }
  right. rewrite (bank_account_valid _ _ _ _ _ _ Hparse).
  destruct (find_ok e) eqn:Hfind.
  2: { left. unfold store_form, findOne. rewrite Hfind.
       split_and!; [done | done |]. left. done. }
  destruct (save_ok e) eqn:Hsave.
  2: { left. unfold store_form, findOne, save. rewrite Hfind, Hsave.
       destruct (list_find _ _) as [[i a]|]; cbn [fst snd docs calls];
         (split_and!; [done | done |]); right; (split; [done |]);
         eexists; by rewrite <- app_assoc. }
  right. rewrite store_form_ok by done. cbn zeta.
  split_and!; [done | done | done |]. exists d.
  destruct (list_find _ _) as [[i a]|]; eexists; by split_and!.
Qed.
End Cases.

(** X7. A failure of the store is answered with status 500 and the one
    fixed message, for every valid payload; the collection is left as it
    was, whichever of the two calls failed. *)
Theorem store_failure_answer (is_url : string → bool)
    (issue_json : issue → jsval) (e : env) (req : request) (st : store)
    (d : VerificationData) :
  safeParse (bankVerificationSchema is_url) (body req) = inr d →
  find_ok e = false ∨ save_ok e = false →
  (bank_account is_url issue_json e req st).1 = store_failure
  ∧ docs (bank_account is_url issue_json e req st).2 = docs st.
Proof.
  intros Hvalid Hfail.
  rewrite (bank_account_valid _ _ _ _ _ _ Hvalid).
  unfold store_form, findOne, save.
  destruct (find_ok e) eqn:Hfind; [|done].
  destruct Hfail as [?|Hsave]; [done |]. rewrite Hsave.
  by destruct (list_find _ _) as [[i a]|].
Qed.

Lemma store_failure_answer_witness :
  (bank_account (λ _, true) (λ _, VNull)
     {| find_ok := true; save_ok := false; now := 5; fresh_id := 1 |}
     (sample_request "123456789") sample_store).1 = store_failure
  ∧ docs (bank_account (λ _, true) (λ _, VNull)
            {| find_ok := true; save_ok := false; now := 5; fresh_id := 1 |}
            (sample_request "123456789") sample_store).2
    = [sample_record].
Proof.
  apply (store_failure_answer (λ _, true) (λ _, VNull)
           {| find_ok := true; save_ok := false; now := 5; fresh_id := 1 |}
           (sample_request "123456789") sample_store sample_data);
    [by vm_compute | right; reflexivity].
Defined.

(** X8. Whatever the request, the store and the environment: the answer
    is 200, 400 or 500; the collection changes only with a 200; a 400 is
    given without any call on the store; and the calls made are a lookup
    of the caller, followed by at most one save. *)
Theorem bank_account_calls (is_url : string → bool)
    (issue_json : issue → jsval) (e : env) (req : request) (st : store) :
  let res := (bank_account is_url issue_json e req st).1 in
  let st' := (bank_account is_url issue_json e req st).2 in
  (status res = 200 ∨ status res = 400 ∨ status res = 500)
  ∧ (status res ≠ 200 → docs st' = docs st)
  ∧ (status res = 400 → calls st' = calls st)
  ∧ (status res ≠ 400 →
     ∃ saves, calls st' = calls st ++ FindOne (user_id req) :: saves
              ∧ (saves = [] ∨ ∃ a, saves = [Save a])).
Proof.
  cbn zeta.
  destruct (bank_account_cases is_url issue_json e req st)
    as [[H400 ->] | [(-> & Hdocs & Hcalls) | (H200 & _ & _ & d & a & _ & Hcalls & _)]].
  - rewrite H400. split_and!; auto. done.
  - cbn [status store_failure]. split_and!; auto; [done |]. intros _.
    destruct Hcalls as [[_ ->] | [_ [a ->]]]; eauto.
  - rewrite H200. split_and!; auto; [done | done |]. intros _. eauto.
Qed.

(** X9. The handler never touches the record of another owner: a record
    of the collection that does not belong to the caller is at its place,
    unchanged, after the request. *)
Theorem other_owners_untouched (is_url : string → bool)
    (issue_json : issue → jsval) (e : env) (req : request) (st : store)
    (j : nat) (doc : gmap string jsval) :
  docs st !! j = Some doc →
  owned_by (user_id req) doc = false →
  docs (bank_account is_url issue_json e req st).2 !! j = Some doc.
Proof.
  intros Hj Hother.
  destruct (bank_account_cases is_url issue_json e req st)
    as [[_ ->] | [(_ & -> & _) | (_ & _ & _ & d & a & _ & _ & Hdocs)]];
    [done | done |].
  destruct (list_find _ _) as [[i old]|] eqn:Hfound.
  - destruct Hdocs as [_ ->].
    apply list_find_Some in Hfound as (Hi & Hown & _).
    rewrite list_lookup_insert_ne; [done |]. intros ->.
    rewrite Hj in Hi. injection Hi as ->.
    apply Is_true_true in Hown. congruence.
  - destruct Hdocs as [_ ->]. by apply lookup_app_l_Some.
Qed.

Lemma other_owners_untouched_witness :
  docs (bank_account (λ _, true) (λ _, VNull) sample_env
          (sample_request "123456789")
          (Store [other_record; sample_record] [])).2 !! 0
  = Some other_record.
Proof.
  apply (other_owners_untouched (λ _, true) (λ _, VNull) sample_env
           (sample_request "123456789")
           (Store [other_record; sample_record] []) 0 other_record);
    reflexivity.
Defined.

(** The handler as its two steps, run with nothing in between. *)
Lemma bank_account_in_two is_url issue_json e req st :
  bank_account is_url issue_json e req st
  = from_save e (until_save is_url issue_json e req st).1
      (until_save is_url issue_json e req st).2.
Proof.
  unfold bank_account, until_save, from_save, store_form.
  destruct (safeParse _ _) as [errs|d]; [done |].
  destruct (findOne e (user_id req) st) as [[err|[[i a]|]] st1]; cbn [fst snd];
    try done.
  - destruct (save e (Some i) _ st1) as [[?|?] ?]; [done |].
    by destruct (acknowledge _).
  - destruct (save e None _ st1) as [[?|?] ?]; [done |].
    by destruct (acknowledge _).
Qed.

Lemma serial_keeps_owners is_url issue_json e req st :
  NoDup (owners (docs st)) →
  NoDup (owners (docs (bank_account is_url issue_json e req st).2)).
Proof.
  intros Hnodup.
  destruct (bank_account_cases is_url issue_json e req st)
    as [[_ ->] | [(_ & -> & _) | (_ & _ & _ & d & a & _ & _ & Hdocs)]];
    [done | done |].
  destruct (list_find _ _) as [[i old]|] eqn:Hfound.
  - destruct Hdocs as [-> ->].
    apply list_find_Some in Hfound as (Hi & _).
    rewrite (owners_insert _ _ old); [done | done | apply owner_update].
  - destruct Hdocs as [-> ->]. unfold owners. rewrite omap_app.
    cbn [omap list_omap]. rewrite owner_create.
    apply NoDup_app. split_and!; [done | | apply NoDup_singleton].
    intros uid Hin ->%list_elem_of_singleton.
    by apply (not_found_not_owner _ _ Hfound).
Qed.



(** X10. One record for each owner, for a request that runs alone: when
    no two records of the collection have the same owner and the save of
    a request follows its lookup with no call of another request in
    between, the same holds after the request. *)
Theorem one_record_per_owner (is_url : string → bool)
    (issue_json : issue → jsval) (e : env) (req : request) (st : store) :
  NoDup (owners (docs st)) →
  NoDup
    (owners
       (docs
          (from_save e (until_save is_url issue_json e req st).1
             (until_save is_url issue_json e req st).2).2)).
Proof.
  intros Hnodup. rewrite <- bank_account_in_two.
  by apply serial_keeps_owners.
Qed.

Lemma one_record_per_owner_witness :
  NoDup
    (owners
       (docs
          (from_save sample_env
             (until_save (λ _, true) (λ _, VNull) sample_env
                (sample_request "123456789") (Store [other_record] [])).1
             (until_save (λ _, true) (λ _, VNull) sample_env
                (sample_request "123456789") (Store [other_record] [])).2).2)).
Proof.
  apply (one_record_per_owner (λ _, true) (λ _, VNull) sample_env
           (sample_request "123456789") (Store [other_record] [])).
  vm_compute. repeat constructor; by intros ?%elem_of_nil.
Defined.



(** X15. The location of a valid payload, as it is stored. When both
    store calls succeed, the record that is saved, new or updated, has a
    location made of the city and the state of the location of the
    request and of its country, or India when the request gives none;
    whatever else the location of the request carries is not stored. *)
Theorem location_stored (is_url : string → bool)
    (issue_json : issue → jsval) (e : env) (req : request) (st : store)
    (o lo : gmap string jsval) (d : VerificationData) :
  body req = VObj o →
  o !! "location" = Some (VObj lo) →
  safeParse (bankVerificationSchema is_url) (body req) = inr d →
  find_ok e = true → save_ok e = true →
  ∃ artisan,
    last (calls (bank_account is_url issue_json e req st).2)
    = Some (Save artisan)
    ∧ artisan ∈ docs (bank_account is_url issue_json e req st).2
    ∧ artisan !! "location"
      = Some (VObj {[ "city" := get lo "city";
                      "state" := get lo "state";
                      "country" :=
                        if is_undefined (get lo "country") then VStr "India"
                        else get lo "country" ]}).
Proof.
  intros Hbody Hlo Hvalid Hfind Hsave.
  destruct (location_of_request _ _ _ Hvalid) as (o' & lo' & Ho' & Hlo' & Hlv).
  rewrite Hbody in Ho'. injection Ho' as <-.
  rewrite (get_Some _ _ _ Hlo) in Hlo'. injection Hlo' as <-.
  rewrite (bank_account_valid _ _ _ _ _ _ Hvalid).
  rewrite store_form_ok by done. cbn zeta.
  destruct (list_find _ _) as [[i a]|] eqn:Hfound; cbn [fst snd docs calls].
  - exists (update_artisan e d a). split_and!.
    + apply last_two.
    + apply list_find_Some in Hfound as (Hi & _).
      apply list_elem_of_lookup. exists i.
      apply list_lookup_insert_eq. by eapply lookup_lt_Some.
    + rewrite <- Hlv. unfold update_artisan, assign_if. cbn zeta.
      cbn [truthy location_val]. look. repeat case_match; by look.
  - exists (create_artisan e (user_id req) d). split_and!.
    + apply last_two.
    + apply elem_of_app. right. by apply list_elem_of_singleton.
    + rewrite <- Hlv. unfold create_artisan, Artisan. by look.
Qed.

Lemma location_stored_witness :
  ∃ artisan,
    docs (bank_account (λ _, true) (λ _, VNull) sample_env
            {| body := VObj detailed_payload; user_id := 7 |}
            empty_store).2 = [artisan]
    ∧ artisan !! "location"
      = Some (VObj {[ "city" := VStr "Pune"; "state" := VStr "MH";
                      "country" := VStr "India" ]}).
Proof.
  destruct (location_stored (λ _, true) (λ _, VNull) sample_env
              {| body := VObj detailed_payload; user_id := 7 |} empty_store
              detailed_payload
              {[ "city" := VStr "Pune"; "state" := VStr "MH";
                 "zip" := VStr "411001" ]} detailed_data)
    as (artisan & _ & Hin & Hloc);
    [reflexivity | reflexivity | by vm_compute | reflexivity | reflexivity |].
  exists artisan. split; [|exact Hloc].
  revert Hin. rewrite (bank_account_valid _ _ _ _ _ detailed_data)
    by (by vm_compute).
  rewrite store_form_ok by reflexivity. cbn.
  intros Hin%list_elem_of_singleton. by rewrite Hin.
Defined.

(** The record of a first submission is the one a second submission of
    the same caller finds. *)
Lemma find_created e uid d (docs : list (gmap string jsval)) :
  list_find (λ a, Is_true (owned_by uid a)) docs = None →
  list_find (λ a, Is_true (owned_by uid a)) (docs ++ [create_artisan e uid d])
  = Some (length docs, create_artisan e uid d).
Proof.
  intros Hnone. rewrite list_find_app_r by done.
  cbn [list_find]. rewrite decide_True; [done |].
  apply Is_true_true, owned_by_owner, owner_create.
Qed.

(** X11. Two submissions of one caller who had no record make one
    record: the first creates it, the second updates that same record in
    its place, and both are acknowledged with the id given at creation. *)
Theorem resubmission (is_url : string → bool) (issue_json : issue → jsval)
    (e1 e2 : env) (req1 req2 : request) (st : store)
    (d1 d2 : VerificationData) :
  user_id req1 = user_id req2 →
  safeParse (bankVerificationSchema is_url) (body req1) = inr d1 →
  safeParse (bankVerificationSchema is_url) (body req2) = inr d2 →
  find_ok e1 = true → save_ok e1 = true →
  find_ok e2 = true → save_ok e2 = true →
  list_find (λ a, Is_true (owned_by (user_id req1) a)) (docs st) = None →
  let first := bank_account is_url issue_json e1 req1 st in
  let second := bank_account is_url issue_json e2 req2 first.2 in
  docs second.2
  = docs st
    ++ [update_artisan e2 d2 (create_artisan e1 (user_id req1) d1)]
  ∧ json first.1
    = ack_json (VId (fresh_id e1)) (VStr (name d1)) (VBool true)
  ∧ json second.1
    = ack_json (VId (fresh_id e1)) (VStr (name d2)) (VBool true).
Proof.
  intros Huid Hv1 Hv2 Hf1 Hs1 Hf2 Hs2 Hnone. cbn zeta.
  rewrite (bank_account_valid _ _ _ _ _ _ Hv1).
  rewrite store_form_ok by done. rewrite Hnone. cbn zeta. cbn [fst snd].
  rewrite (bank_account_valid _ _ _ _ _ _ Hv2).
  rewrite store_form_ok by done. cbn [docs]. rewrite <- Huid.
  rewrite find_created by done. cbn zeta. cbn [fst snd docs json].
  assert (∀ artisan, get (update_artisan e2 d2 artisan) "_id"
                     = get artisan "_id") as Hid.
  { intros artisan. unfold get. rewrite update_keeps; [done |].
    unfold written_fields. rewrite !not_elem_of_cons.
    split_and!; (done || apply not_elem_of_nil). }
  rewrite Hid.
  rewrite (get_Some _ "_id" (VId (fresh_id e1)))
    by (unfold create_artisan, Artisan; by look).
  split_and!; [| done | done].
  rewrite insert_app_r_alt by done. by rewrite Nat.sub_diag.
Qed.

Lemma resubmission_witness :
  length
    (docs (bank_account (λ _, true) (λ _, VNull) sample_env
             (sample_request "987654321")
             (bank_account (λ _, true) (λ _, VNull) sample_env
                (sample_request "123456789") empty_store).2).2)
  = 1.
Proof.
  destruct (resubmission (λ _, true) (λ _, VNull) sample_env sample_env
              (sample_request "123456789") (sample_request "987654321")
              empty_store sample_data
              {| accountNumber := "987654321";
                 ifscCode := "ABCD0123456";
                 bankName := "Test Bank";
                 name := "Jane";
                 bio := None;
                 location :=
                   {| city := "Pune"; state := "MH"; country := "India" |};
                 specialties := None;
                 experience := None;
                 socials := None;
                 documentType := "aadhar";
                 documentNumber := "X1" |})
    as (Hdocs & _);
    [reflexivity | by vm_compute | by vm_compute | reflexivity ..
    | by rewrite Hdocs].
Defined.

Lemma safeParse_agree is_url o1 o2 :
  Forall (λ k, o1 !! k = o2 !! k) schema_keys →
  safeParse (bankVerificationSchema is_url) (VObj o1)
  = safeParse (bankVerificationSchema is_url) (VObj o2).
Proof.
  unfold schema_keys, required_keys, optional_keys. cbn [app]. intros H.
  repeat (apply Forall_cons in H as [? H]).
  unfold safeParse, bankVerificationSchema, z_object, field, get.
  repeat match goal with Hk : o1 !! _ = _ |- _ => rewrite Hk; clear Hk end.
  done.
Qed.

(** X12. Keys outside the shape of the schema are ignored: two payloads
    that agree on the eleven keys of the shape get the same answer and
    leave the same store, whatever else they carry. *)
Theorem unknown_keys_ignored (is_url : string → bool)
    (issue_json : issue → jsval) (e : env) (uid : N) (st : store)
    (o1 o2 : gmap string jsval) :
  Forall (λ k, o1 !! k = o2 !! k) schema_keys →
  bank_account is_url issue_json e {| body := VObj o1; user_id := uid |} st
  = bank_account is_url issue_json e {| body := VObj o2; user_id := uid |} st.
Proof.
  intros Hagree. unfold bank_account. cbn [body user_id].
  by rewrite (safeParse_agree is_url o1 o2 Hagree).
Qed.

Lemma unknown_keys_ignored_witness :
  bank_account (λ _, true) (λ _, VNull) sample_env
    {| body :=
         VObj (<["isVerified" := VBool false]> (sample_payload "123456789"));
       user_id := 7 |} empty_store
  = bank_account (λ _, true) (λ _, VNull) sample_env
      (sample_request "123456789") empty_store.
Proof.
  apply (unknown_keys_ignored (λ _, true) (λ _, VNull) sample_env 7
           empty_store
           (<["isVerified" := VBool false]> (sample_payload "123456789"))
           (sample_payload "123456789")).
  repeat constructor.
Defined.

End HandlerMore.

(* ===================================================================== *)
(** ** More on the client: the requests of a registration *)
(* ===================================================================== *)

Module ClientMore.
Import Api Reading Vocabulary HandlerFacts ClientFacts.

Lemma fulfilled_inr {A} (values : list A) :
  fulfilled (inr <$> values) = Some values.
Proof. induction values as [|a l IH]; csimpl; [done | by rewrite IH]. Qed.

Lemma fulfilled_Some {A} (ps : list (result A)) values :
  fulfilled ps = Some values → ps = inr <$> values.
Proof.
  revert values. induction ps as [|[e|a] ps IH]; intros values; simpl.
  - by intros [= <-].
  - done.
  - destruct (fulfilled ps) as [l|]; [|done]. intros [= <-].
    by rewrite (IH l eq_refl).
Qed.

(** [Object.assign] over two runs of sources. *)
Lemma Object_assign_from (acc : gmap string jsval) sources :
  foldl (λ target src, src ∪ target) acc sources
  = Object_assign sources ∪ acc.
Proof.
  unfold Object_assign. revert acc.
  induction sources as [|m l IH]; intros acc; simpl.
  - by rewrite (left_id_L ∅ (∪)).
  - rewrite IH, (IH (m ∪ ∅)), (right_id_L ∅ (∪)).
    by rewrite (assoc_L (∪)).
Qed.

Lemma Object_assign_app l1 l2 :
  Object_assign (l1 ++ l2) = Object_assign l2 ∪ Object_assign l1.
Proof.
  unfold Object_assign at 1. rewrite foldl_app.
  apply Object_assign_from.
Qed.

Lemma Object_assign_nil : Object_assign [] = ∅.
Proof. done. Qed.

Lemma Object_assign_one m : Object_assign [m] = m.
Proof. unfold Object_assign. simpl. apply (right_id_L ∅ (∪)). Qed.

Lemma Object_assign_lookup_None sources k :
  Forall (λ m : gmap string jsval, m !! k = None) sources →
  Object_assign sources !! k = None.
Proof.
  induction sources as [|m l IH] using rev_ind; [done |].
  intros [Hl Hm]%Forall_app. apply Forall_cons in Hm as [Hm _].
  rewrite Object_assign_app, Object_assign_one.
  apply lookup_union_None. auto.
Qed.

Section Starts.
Variable API_BASE_URL : string.
Variable net : http_request → result Response.
Variable first_rejected : list js_error → js_error.
Variable to_string : jsval → string.

Lemma push_upload_eq file type k ps sent :
  push_upload API_BASE_URL net to_string file type k ps sent
  = (ps ++ file_promise API_BASE_URL net to_string file type k,
     sent ++ (upload_request API_BASE_URL <$> file_attachment file type)).
Proof.
  unfold push_upload, file_promise. destruct file as [f|].
  - by rewrite uploadFile_run.
  - cbn [file_attachment fmap list_fmap]. by rewrite !app_nil_r.
Qed.

Lemma push_photos_eq photos ps sent :
  push_photos API_BASE_URL net first_rejected to_string photos ps sent
  = (ps ++ photos_promise API_BASE_URL net first_rejected to_string photos,
     sent ++ (upload_request API_BASE_URL <$> photo_attachments photos)).
Proof.
  unfold push_photos, photos_promise.
  destruct (Nat.ltb 0 (length photos)) eqn:Hlen.
  - by rewrite upload_each_run.
  - destruct photos; [|done].
    cbn [photo_attachments fmap list_fmap]. by rewrite !app_nil_r.
Qed.

(** The uploads are started one after the other; each adds its promise
    and its requests. *)
Lemma start_uploads_eq data sent :
  start_uploads API_BASE_URL net first_rejected to_string data sent
  = (upload_promises API_BASE_URL net first_rejected to_string data,
     sent ++ (upload_request API_BASE_URL <$> attachments data)).
Proof.
  unfold start_uploads, upload_promises, attachments.
  rewrite push_upload_eq. cbn iota. rewrite push_upload_eq. cbn iota.
  rewrite push_upload_eq. cbn iota. rewrite push_photos_eq. cbn iota.
  rewrite push_upload_eq. cbn [app].
  by rewrite !fmap_app, <- !app_assoc.
Qed.

(** A promise of the uploads holds one location field, when it holds. *)
Lemma upload_promises_keyed data p m :
  p ∈ upload_promises API_BASE_URL net first_rejected to_string data →
  p = inr m → ∃ k u, k ∈ url_fields ∧ m = {[ k := u ]}.
Proof.
  unfold upload_promises, file_promise, photos_promise, url_fields.
  rewrite !elem_of_app. intros Hin ->.
  assert (∀ (r : result jsval) k,
            then_ r (url_as k) = inr m → ∃ u, m = {[ k := u ]}) as Hone.
  { intros [err|res] k; [done |]. unfold then_, url_as, then_.
    destruct (get_prop res "url"); [done |]. intros [= <-]. eauto. }
  repeat match goal with
    | H : _ ∨ _ |- _ => destruct H as [H|H]
    | H : _ ∈ match ?x with Some _ => _ | None => _ end |- _ => destruct x
    | H : _ ∈ (if ?b then _ else _) |- _ => destruct b
    | H : _ ∈ [] |- _ => by apply elem_of_nil in H
    | H : _ ∈ [_] |- _ => apply list_elem_of_singleton in H
    end.
  1-3, 5: symmetry in Hin; apply Hone in Hin as [u ->]; eexists _, u;
    (split; [|done]); rewrite !elem_of_cons; auto 10.
  symmetry in Hin. unfold then_ in Hin.
  destruct (Promise_all _ _) as [|results]; [done |].
  destruct (urls_of results) as [|us]; [done |]. injection Hin as <-.
  eexists _, _. split; [|done]. rewrite !elem_of_cons; auto 10.
Qed.
End Starts.

Lemma Promise_all_inr {A} fr (ps : list (result A)) values :
  Promise_all fr ps = inr values → ps = inr <$> values.
Proof.
  unfold Promise_all. destruct (fulfilled ps) as [l|] eqn:Hl; [|done].
  intros [= <-]. by apply fulfilled_Some.
Qed.

(** X13. The requests of a registration, whatever the network does: the
    upload of every attachment, in order, and then either nothing more,
    the call having failed, or the one registration request. The payload
    of that request has none of the five raw file fields, and it has
    every other field of the form as [JSON.stringify] renders it. *)
Theorem registration_requests (API_BASE_URL : string)
    (net : http_request → result Response)
    (first_rejected : list js_error → js_error)
    (to_string : jsval → string) (data : SellerFormData)
    (sent : list http_request) :
  let run :=
    registerSeller API_BASE_URL net first_rejected to_string data sent in
  let uploads := upload_request API_BASE_URL <$> attachments data in
  (rejected run.1 ∧ run.2 = sent ++ uploads)
  ∨ ∃ payload,
      run.2 = sent ++ uploads ++ [register_request API_BASE_URL payload]
      ∧ run.1
        = then_ (net (register_request API_BASE_URL payload))
            (handleResponse to_string)
      ∧ Forall (λ k, payload !! k = None) raw_file_fields
      ∧ ∀ k, k ∉ file_fields →
             payload !! k = JSON_stringify (data_props data) !! k.
Proof.
  cbn zeta. unfold registerSeller. rewrite start_uploads_eq.
  destruct (Promise_all _ _) as [err|values] eqn:Hall.
  { left. split; [by exists err | done]. }
  right. exists (JSON_stringify (finalData data (Object_assign values))).
  unfold fetch. cbn [fst snd].
  split_and!; [by rewrite <- app_assoc | done | |].
  - unfold raw_file_fields, JSON_stringify, finalData.
    repeat apply Forall_cons_2; [.. | apply Forall_nil_2].
    all: rewrite lookup_omap; by look.
  - intros k Hk. unfold file_fields in Hk. rewrite !not_elem_of_cons in Hk.
    destruct Hk as (? & ? & ? & ? & ? & ? & ? & ? & ? & ? & _).
    unfold JSON_stringify, finalData. rewrite !lookup_omap.
    rewrite !lookup_insert_ne by congruence.
    rewrite lookup_union_r; [done |].
    apply Object_assign_lookup_None, Forall_forall. intros m Hm.
    apply Promise_all_inr in Hall.
    destruct (upload_promises_keyed API_BASE_URL net first_rejected
                to_string data (inr m) m) as (k' & u & Hk' & ->); [| done |].
    { rewrite Hall. by apply list_elem_of_fmap_2. }
    apply lookup_singleton_ne. unfold url_fields in Hk'.
    rewrite !elem_of_cons in Hk'.
    destruct Hk' as [->|[->|[->|[->|[->|?%elem_of_nil]]]]]; done.
Qed.

Section Served.
Variable API_BASE_URL : string.
Variable net : http_request → result Response.
Variable first_rejected : list js_error → js_error.
Variable to_string : jsval → string.
Variable loc : string * upload_type → string.

Lemma file_promise_served file type k :
  Forall (served API_BASE_URL net to_string loc) (file_attachment file type) →
  file_promise API_BASE_URL net to_string file type k
  = inr <$> url_entry loc file type k.
Proof.
  unfold file_promise, url_entry. destruct file as [f|]; [|done].
  intros [(o & -> & Hurl) _]%Forall_cons.
  unfold then_, url_as, then_, get_prop, get. by rewrite Hurl.
Qed.

Lemma photos_served photos :
  Forall (served API_BASE_URL net to_string loc) (photo_attachments photos) →
  ∃ results,
    upload_outcome API_BASE_URL net to_string <$> photo_attachments photos
    = inr <$> results
    ∧ urls_of results = inr (photo_urls loc photos).
Proof.
  induction photos as [|photo rest IH]; csimpl.
  - by exists [].
  - intros [(o & Ho & Hurl) Hrest]%Forall_cons.
    destruct (IH Hrest) as (results & Hres & Hurls).
    exists (VObj o :: results). csimpl. rewrite Ho, Hres. split; [done |].
    unfold then_, get_prop, get. rewrite Hurl. cbn [default from_option id].
    fold (urls_of results). by rewrite Hurls.
Qed.

Lemma photos_promise_served photos :
  Forall (served API_BASE_URL net to_string loc) (photo_attachments photos) →
  photos_promise API_BASE_URL net first_rejected to_string photos
  = inr <$> photos_entry loc photos.
Proof.
  intros (results & Hres & Hurls)%photos_served.
  unfold photos_promise, photos_entry.
  destruct (Nat.ltb 0 (length photos)); [|done].
  rewrite Hres. unfold Promise_all. rewrite fulfilled_inr.
  unfold then_. by rewrite Hurls.
Qed.

Lemma upload_promises_served data :
  Forall (served API_BASE_URL net to_string loc) (attachments data) →
  upload_promises API_BASE_URL net first_rejected to_string data
  = inr <$> upload_results loc data.
Proof.
  unfold attachments, upload_promises, upload_results.
  rewrite !Forall_app. intros (H1 & H2 & H3 & H4 & H5).
  rewrite !file_promise_served, photos_promise_served by done.
  by rewrite !fmap_app.
Qed.

Lemma url_entry_lookup file type k k' :
  Object_assign (url_entry loc file type k) !! k'
  = if decide (k = k') then (λ f, VStr (loc (f, type))) <$> file else None.
Proof.
  unfold url_entry. destruct file as [f|]; simpl.
  - rewrite Object_assign_one. case_decide as Hk.
    + subst. apply lookup_singleton_eq.
    + by apply lookup_singleton_ne.
  - rewrite Object_assign_nil, lookup_empty. by case_decide.
Qed.

Lemma photos_entry_lookup photos k' :
  Object_assign (photos_entry loc photos) !! k'
  = if decide ("productPhotoUrls" = k')
    then match photos with
         | [] => None
         | _ :: _ => Some (VArr (photo_urls loc photos))
         end
    else None.
Proof.
  unfold photos_entry. destruct photos as [|photo rest]; simpl.
  - rewrite Object_assign_nil, lookup_empty. by case_decide.
  - rewrite Object_assign_one. case_decide as Hk.
    + subst. apply lookup_singleton_eq.
    + by apply lookup_singleton_ne.
Qed.
End Served.

Lemma to_wire_photo_urls loc photos :
  to_wire (VArr (photo_urls loc photos)) = VArr (photo_urls loc photos).
Proof.
  unfold photo_urls. cbn [to_wire]. f_equal.
  induction photos as [|photo rest IH]; csimpl; [done |].
  f_equal. exact IH.
Qed.

(** X14. When every upload is served, the call sends the uploads and then
    the registration, and the payload of the registration holds the
    location of each single file under its own field, absent when the
    file is, and the locations of the product photos as a list in the
    order of the photos, absent when there is no photo. *)
Theorem registration_payload (API_BASE_URL : string)
    (net : http_request → result Response)
    (first_rejected : list js_error → js_error)
    (to_string : jsval → string) (loc : string * upload_type → string)
    (data : SellerFormData) (sent : list http_request) :
  Forall (served API_BASE_URL net to_string loc) (attachments data) →
  ∃ payload,
    registerSeller API_BASE_URL net first_rejected to_string data sent
    = (then_ (net (register_request API_BASE_URL payload))
         (handleResponse to_string),
       sent ++ (upload_request API_BASE_URL <$> attachments data)
       ++ [register_request API_BASE_URL payload])
    ∧ payload !! "profilePhotoUrl"
      = (λ f, VStr (loc (f, image))) <$> profilePhoto data
    ∧ payload !! "gstCertificateUrl"
      = (λ f, VStr (loc (f, document))) <$> gstCertificate data
    ∧ payload !! "aadhaarProofUrl"
      = (λ f, VStr (loc (f, document))) <$> aadhaarProof data
    ∧ payload !! "craftVideoUrl"
      = (λ f, VStr (loc (f, video))) <$> craftVideo data
    ∧ payload !! "productPhotoUrls"
      = match productPhotos data with
        | [] => None
        | _ :: _ => Some (VArr (photo_urls loc (productPhotos data)))
        end.
Proof.
  intros Hserved. unfold registerSeller. rewrite start_uploads_eq.
  rewrite (upload_promises_served _ _ _ _ loc) by done.
  unfold Promise_all. rewrite fulfilled_inr.
  exists (JSON_stringify
            (finalData data (Object_assign (upload_results loc data)))).
  unfold fetch.
  split; [by rewrite <- app_assoc |].
  assert (∀ k, k ∈ url_fields →
               JSON_stringify
                 (finalData data (Object_assign (upload_results loc data)))
               !! k
               = Object_assign (upload_results loc data) !! k
                 ≫= (λ x, if is_undefined x then None else Some (to_wire x)))
    as Hurl.
  { intros k Hk. unfold url_fields in Hk. rewrite !elem_of_cons in Hk.
    unfold JSON_stringify, finalData. rewrite lookup_omap.
    assert (data_props data !! k = None) as Hnone.
    { unfold data_props. apply not_elem_of_list_to_map_1.
      cbn [fmap list_fmap fst]. rewrite !not_elem_of_cons.
      destruct Hk as [->|[->|[->|[->|[->|?%elem_of_nil]]]]]; try done.
      all: split_and!; (done || apply not_elem_of_nil). }
    destruct Hk as [->|[->|[->|[->|[->|?%elem_of_nil]]]]]; try done.
    all: look; by rewrite lookup_union_l. }
  unfold upload_results in *.
  rewrite !Hurl by (unfold url_fields; rewrite !elem_of_cons; auto 10).
  rewrite !Object_assign_app, !lookup_union, !url_entry_lookup,
    !photos_entry_lookup.
  split_and!; repeat case_decide; try done.
  1-4: by match goal with |- context [_ <$> ?f] => destruct f end.
  destruct (productPhotos data) as [|photo rest] eqn:Hphotos; [done |].
  rewrite <- Hphotos. cbn [union option_union union_with option_union_with
    mbind option_bind is_undefined].
  by rewrite to_wire_photo_urls.
Qed.

Lemma registration_payload_witness :
  ∃ payload,
    (registerSeller "/api" echo_net first_of (λ _, "") sample_form_files []).2
    = [upload_request "/api" ("me.png", image);
       upload_request "/api" ("a.png", image);
       upload_request "/api" ("b.png", image);
       register_request "/api" payload]
    ∧ payload !! "profilePhotoUrl" = Some (VStr "/files/me.png")
    ∧ payload !! "productPhotoUrls"
      = Some (VArr [VStr "/files/a.png"; VStr "/files/b.png"]).
Proof.
  destruct (registration_payload "/api" echo_net first_of (λ _, "")
              (λ a, "/files/" +:+ a.1) sample_form_files [])
    as (payload & Hrun & Hphoto & _ & _ & _ & Hphotos).
  - repeat constructor; eexists; (split; [by vm_compute | reflexivity]).
  - exists payload. rewrite Hrun. split_and!; [done | exact Hphoto |].
    exact Hphotos.
Defined.

End ClientMore.
